(** * prolink-typescript: the field codec and the CLI track de-duplication

    A shallow embedding of the type-tagged field codec ([parseNumber],
    [makeVariableBuffer], the [Number], [String] and [Binary] field
    classes, [fieldMap], [read] and [readField]) and of the [lastTid]
    status handler of [src/cli/index.ts], together with the properties
    established about them.

    Conventions of the embedding.
    - A Node [Buffer] is a [list byte]; the [Buffer] methods the code
      calls are written out in [Module Buf] after Node's
      [lib/buffer.js] and [lib/internal/buffer.js].
    - A JavaScript [number] is an exact rational, [NaN] or an infinity;
      the integers the codec handles are the rationals [int z].
    - A JavaScript [string] is its sequence of UTF-16 code units.
    - A thrown exception is a [Throw e] result, and an awaited promise
      that never settles a [Pending] one; [readField] threads the
      stream it reads from through a small state-and-error monad, and
      is written once for every stream ([PromiseReadable]); the stream
      that has ended ([EndedStream]) is the instance the statements
      about truncation are made on.
    - The [Map] of the status handler is a [gmap]. *)

From Stdlib Require Import ZArith QArith List Lia Bool.
From Stdlib Require Strings.Byte.
From Stdlib Require Import Strings.String.
From stdpp Require Import base gmap list.
Import Init.Byte.

Close Scope Q_scope.
Close Scope string_scope.
Open Scope Z_scope.

(** ** Exceptions *)

(** The exceptions the code and the [Buffer] methods it calls can throw. *)
Inductive error :=
  | ExpectedBuffer
      (* Error('Expected buffer from stream read'), thrown by [read] *)
  | ExpectedButGot (expected got : string)
      (* Error(`Expected ${..} but got ${..}`), thrown by [readField] *)
  | TypeError_undefined
      (* TypeError: a property is read from [undefined] *)
  | ERR_OUT_OF_RANGE_value
      (* RangeError: the value given to a [Buffer] write is out of range *)
  | ERR_OUT_OF_RANGE_offset
      (* RangeError: a [Buffer] read or write reaches past the end *)
  | ERR_INVALID_BUFFER_SIZE
      (* RangeError: [swap16] on a buffer of odd length *)
  | ERR_OUT_OF_RANGE_size
      (* RangeError: the size given to [readable.read] is above 1 GiB *)
  | StreamError
      (* the rejection of the promise returned by the stream's [read] *).

(** The outcome of a computation: a value, a thrown exception, or, for
    a computation that awaits a promise that never settles, nothing at
    all; what follows the [await] is then never run. Only a read on a
    stream can be pending. *)
Inductive result (A : Type) :=
  | Ok (a : A)
  | Throw (e : error)
  | Pending.
Arguments Ok {A} a.
Arguments Throw {A} e.
Arguments Pending {A}.

Definition bind {A B} (r : result A) (k : A -> result B) : result B :=
  match r with
  | Ok a => k a
  | Throw e => Throw e
  | Pending => Pending
  end.

Notation "'try!' x ':=' e 'in' k" := (bind e (fun x => k))
  (at level 10, x name, e at level 100, k at level 200).

Definition is_Ok {A} (r : result A) : bool :=
  match r with Ok _ => true | _ => false end.

(** ** JavaScript numbers and strings *)

Inductive number :=
  | Finite (q : Q)
  | NaN
  | Infinity (negative : bool).

(** The number whose value is the integer [z]. *)
Definition int (z : Z) : number := Finite (inject_Z z).

(** [value > bound] and [value < bound], for an integer bound; both are
    false on [NaN]. *)
Definition number_gt (value : number) (bound : Z) : bool :=
  match value with
  | Finite q => negb (Qle_bool q (inject_Z bound))
  | NaN => false
  | Infinity negative => negb negative
  end.

Definition number_lt (value : number) (bound : Z) : bool :=
  match value with
  | Finite q => negb (Qle_bool (inject_Z bound) q)
  | NaN => false
  | Infinity negative => negative
  end.

(** The integer part used by the conversions [ToUint8] and [ToUint32]:
    truncation toward zero, and [0] for [NaN] and the infinities. *)
Definition ToInteger (value : number) : Z :=
  match value with
  | Finite q => Z.quot (Qnum q) (Z.pos (Qden q))
  | NaN => 0
  | Infinity _ => 0
  end.

Definition ToUint32 (value : number) : Z := ToInteger value mod 2 ^ 32.

(** A string is its sequence of UTF-16 code units, each below [2^16]. *)
Definition jsstring := list Z.

Definition is_code_unit (c : Z) : Prop := 0 <= c < 65536.

Definition valid_string (s : jsstring) : Prop := Forall is_code_unit s.

(** ** Node's Buffer *)

Definition Buffer := list byte.

Definition byte_to_Z (b : byte) : Z := Z.of_N (Byte.to_N b).

(** Storing a number into an element of a [Uint8Array] keeps its integer
    part modulo 256. *)
Definition Z_to_byte (z : Z) : byte :=
  match Byte.of_N (Z.to_N (z mod 256)) with
  | Some b => b
  | None => x00
  end.

Definition ToUint8 (value : number) : byte := Z_to_byte (ToInteger value).

Module Buf.

(** [Buffer.alloc(size)]: zero-filled. *)
Definition alloc (size : nat) : Buffer := replicate size x00.

(** [checkBounds]: [buf[offset]] and [buf[offset + byteLength]] must
    both be defined. *)
Definition checkBounds (buf : Buffer) (offset byteLength : nat) : result unit :=
  match buf !! offset, buf !! (offset + byteLength)%nat with
  | Some _, Some _ => Ok tt
  | _, _ => Throw ERR_OUT_OF_RANGE_offset
  end.

(** [checkInt]: the range of the value first, then the bounds. No test
    that the value is an integer. *)
Definition checkInt (value : number) (min max : Z) (buf : Buffer)
    (offset byteLength : nat) : result unit :=
  if number_gt value max || number_lt value min
  then Throw ERR_OUT_OF_RANGE_value
  else checkBounds buf offset byteLength.

(** [buf.writeUInt8(value, offset = 0)] *)
Definition writeUInt8 (buf : Buffer) (value : number) (offset : nat) : result Buffer :=
  if number_gt value 255 || number_lt value 0
  then Throw ERR_OUT_OF_RANGE_value
  else match buf !! offset with
       | None => Throw ERR_OUT_OF_RANGE_offset
       | Some _ => Ok (<[offset := ToUint8 value]> buf)
       end.

(** [buf.writeUInt16BE(value, offset = 0)]:
    [buf[offset++] = value >>> 8; buf[offset++] = value]. *)
Definition writeUInt16BE (buf : Buffer) (value : number) (offset : nat) : result Buffer :=
  try! _ := checkInt value 0 65535 buf offset 1 in
  let buf := <[offset := Z_to_byte (Z.shiftr (ToUint32 value) 8)]> buf in
  let buf := <[S offset := ToUint8 value]> buf in
  Ok buf.

(** [buf.writeUInt32BE(value, offset = 0)]: the low byte is stored at
    [offset + 3], then the value is shifted right by 8 three times. *)
Definition writeUInt32BE (buf : Buffer) (value : number) (offset : nat) : result Buffer :=
  try! _ := checkInt value 0 4294967295 buf offset 3 in
  let buf := <[(offset + 3)%nat := ToUint8 value]> buf in
  let value := Z.shiftr (ToUint32 value) 8 in
  let buf := <[(offset + 2)%nat := Z_to_byte value]> buf in
  let value := Z.shiftr value 8 in
  let buf := <[(offset + 1)%nat := Z_to_byte value]> buf in
  let value := Z.shiftr value 8 in
  let buf := <[offset := Z_to_byte value]> buf in
  Ok buf.

(** [buf.readUInt8(offset = 0)] *)
Definition readUInt8 (buf : Buffer) (offset : nat) : result Z :=
  match buf !! offset with
  | None => Throw ERR_OUT_OF_RANGE_offset
  | Some val => Ok (byte_to_Z val)
  end.

(** [buf.readUInt16BE(offset = 0)]: [first * 2 ** 8 + last]. *)
Definition readUInt16BE (buf : Buffer) (offset : nat) : result Z :=
  match buf !! offset, buf !! (offset + 1)%nat with
  | Some first, Some last => Ok (byte_to_Z first * 2 ^ 8 + byte_to_Z last)
  | _, _ => Throw ERR_OUT_OF_RANGE_offset
  end.

(** [buf.readUInt32BE(offset = 0)] *)
Definition readUInt32BE (buf : Buffer) (offset : nat) : result Z :=
  match buf !! offset, buf !! (offset + 3)%nat with
  | Some first, Some last =>
      match buf !! (offset + 1)%nat, buf !! (offset + 2)%nat with
      | Some b1, Some b2 =>
          Ok (byte_to_Z first * 2 ^ 24 + byte_to_Z b1 * 2 ^ 16
              + byte_to_Z b2 * 2 ^ 8 + byte_to_Z last)
      | _, _ => Throw ERR_OUT_OF_RANGE_offset
      end
  | _, _ => Throw ERR_OUT_OF_RANGE_offset
  end.

(** [source.copy(target, targetStart)]: as many bytes of [source] as
    fit in [target] from [targetStart] on; [target] keeps its length. *)
Definition copy (source target : Buffer) (targetStart : nat) : Buffer :=
  let room := (length target - targetStart)%nat in
  let copied := take room source in
  take targetStart target ++ copied
    ++ drop (targetStart + length copied) target.

(** [Buffer.from(array)]: every entry is stored as a byte. *)
Definition from_array (entries : list Z) : Buffer := map Z_to_byte entries.

(** [Buffer.from(string, 'utf16le')]: two bytes per code unit, low
    byte first. *)
Fixpoint from_utf16le (s : jsstring) : Buffer :=
  match s with
  | [] => []
  | c :: s => Z_to_byte c :: Z_to_byte (Z.shiftr c 8) :: from_utf16le s
  end.

(** The exchange of the two bytes of every 16-bit unit. *)
Fixpoint swap_pairs (buf : Buffer) : Buffer :=
  match buf with
  | a :: b :: buf => b :: a :: swap_pairs buf
  | rest => rest
  end.

(** [buf.swap16()]: throws unless the length is a multiple of 2. *)
Definition swap16 (buf : Buffer) : result Buffer :=
  if Nat.even (length buf) then Ok (swap_pairs buf)
  else Throw ERR_INVALID_BUFFER_SIZE.

(** [buf.toString('utf16le')]: one code unit per pair of bytes, low
    byte first; a trailing single byte is dropped. *)
Fixpoint toString_utf16le (buf : Buffer) : jsstring :=
  match buf with
  | lo :: hi :: buf => (byte_to_Z lo + 256 * byte_to_Z hi) :: toString_utf16le buf
  | _ => []
  end.

End Buf.

(** ** The field codec *)

(** [enum FieldType]: the leading byte that says what the field is. *)
Module FieldType.
Inductive t := UInt8 | UInt16 | UInt32 | String | Binary.

Definition value (type : t) : Z :=
  match type with
  | UInt8 => 0x0f
  | UInt16 => 0x10
  | UInt32 => 0x11
  | String => 0x26
  | Binary => 0x14
  end.
End FieldType.

(** [type NumberFieldType = FieldType.UInt32 | FieldType.UInt16 | FieldType.UInt8] *)
Inductive NumberFieldType := NUInt8 | NUInt16 | NUInt32.

Definition FieldType_of (type : NumberFieldType) : FieldType.t :=
  match type with
  | NUInt8 => FieldType.UInt8
  | NUInt16 => FieldType.UInt16
  | NUInt32 => FieldType.UInt32
  end.

(** An entry of [numberBufferInfo]: the byte count and the [Buffer]
    methods that write and read a number of that width at offset 0. *)
Record BufferInfo := {
  bytes : nat;
  writeFn : Buffer -> number -> result Buffer;
  readFn : Buffer -> result Z;
}.

Definition numberBufferInfo (type : NumberFieldType) : BufferInfo :=
  match type with
  | NUInt8 =>
      {| bytes := 1;
         writeFn := fun buf value => Buf.writeUInt8 buf value 0;
         readFn := fun buf => Buf.readUInt8 buf 0 |}
  | NUInt16 =>
      {| bytes := 2;
         writeFn := fun buf value => Buf.writeUInt16BE buf value 0;
         readFn := fun buf => Buf.readUInt16BE buf 0 |}
  | NUInt32 =>
      {| bytes := 4;
         writeFn := fun buf value => Buf.writeUInt32BE buf value 0;
         readFn := fun buf => Buf.readUInt32BE buf 0 |}
  end.

(** The argument of a number field's constructor: [number | Buffer]. *)
Inductive NumberOrBuffer :=
  | of_number (value : number)
  | of_Buffer (value : Buffer).

(** [parseNumber(value, type)]: the pair of the number and of the data. *)
Definition parseNumber (value : NumberOrBuffer) (type : NumberFieldType)
    : result (number * Buffer) :=
  let info := numberBufferInfo type in
  let data := Buf.alloc (bytes info) in
  match value with
  | of_number value =>
      try! data := writeFn info data value in
      Ok (value, data)
  | of_Buffer value =>
      try! n := readFn info value in
      Ok (int n, value)
  end.

(** [makeVariableBuffer(type, fieldData)] *)
Definition makeVariableBuffer (type : FieldType.t) (fieldData : Buffer) : result Buffer :=
  let data := Buf.alloc (length fieldData + 4 + 1) in
  try! data := Buf.writeUInt8 data (int (FieldType.value type)) 0 in
  try! data := Buf.writeUInt32BE data (int (Z.of_nat (length fieldData))) 1 in
  let data := Buf.copy fieldData data 5 in
  Ok data.

(** The field objects: instances of the class [makeNumberField(type)]
    returns, of [String] and of [Binary]. In a [Binary] field [value]
    and [data] are one and the same [Buffer]. *)
Inductive Field :=
  | NumberField (type : NumberFieldType) (data : Buffer) (value : number)
  | StringField (data : Buffer) (value : jsstring)
  | BinaryField (data : Buffer) (value : Buffer).

Definition data (f : Field) : Buffer :=
  match f with
  | NumberField _ data _ => data
  | StringField data _ => data
  | BinaryField data _ => data
  end.

(** The constructor of the class [makeNumberField(type)] returns. *)
Definition new_Number (type : NumberFieldType) (value : NumberOrBuffer) : result Field :=
  try! parsed := parseNumber value type in
  let (number, data) := parsed in
  Ok (NumberField type data number).

(** The argument of [String]'s constructor: [Buffer | string]. *)
Inductive BufferOrString :=
  | of_string (value : jsstring)
  | of_bytes (value : Buffer).

Definition new_String (value : BufferOrString) : result Field :=
  match value with
  | of_string value =>
      try! data := Buf.swap16 (Buf.from_utf16le value) in
      Ok (StringField data value)
  | of_bytes value =>
      (* [Buffer.from(value)] copies, so [value] itself is not swapped *)
      try! swapped := Buf.swap16 value in
      Ok (StringField value (Buf.toString_utf16le swapped))
  end.

Definition new_Binary (value : Buffer) : result Field :=
  Ok (BinaryField value value).

(** The getter [buffer]: the field with its type header. *)
Definition buffer (f : Field) : result Buffer :=
  match f with
  | NumberField type data _ =>
      Ok (Buf.from_array (FieldType.value (FieldType_of type) :: map byte_to_Z data))
  | StringField data _ => makeVariableBuffer FieldType.String data
  | BinaryField data _ => makeVariableBuffer FieldType.Binary data
  end.

(** The field classes, as values: what [fieldMap] holds. *)
Inductive FieldClass :=
  | makeNumberField (type : NumberFieldType)
  | StringClass
  | BinaryClass.

Definition UInt8 : FieldClass := makeNumberField NUInt8.
Definition UInt16 : FieldClass := makeNumberField NUInt16.
Definition UInt32 : FieldClass := makeNumberField NUInt32.

(** The static property [type]. [String] declares [type] without
    [static], as a property of its instances, so that [String.type] is
    the uninitialised [BaseField.type]: [undefined]. *)
Definition static_type (F : FieldClass) : option FieldType.t :=
  match F with
  | makeNumberField type => Some (FieldType_of type)
  | StringClass => None
  | BinaryClass => Some FieldType.Binary
  end.

(** The static property [bytesToRead]: [None] is [false]. *)
Definition bytesToRead (F : FieldClass) : option nat :=
  match F with
  | makeNumberField type => Some (bytes (numberBufferInfo type))
  | StringClass => None
  | BinaryClass => None
  end.

(** The [name] of the class. *)
Definition name (F : FieldClass) : string :=
  match F with
  | makeNumberField _ => "Number"
  | StringClass => "String"
  | BinaryClass => "Binary"
  end%string.

(** [new Field(buffer)] *)
Definition new (F : FieldClass) (value : Buffer) : result Field :=
  match F with
  | makeNumberField type => new_Number type (of_Buffer value)
  | StringClass => new_String (of_bytes value)
  | BinaryClass => new_Binary value
  end.

(** [fieldMap[type]], for a member of the enumeration. *)
Definition fieldMap (type : FieldType.t) : FieldClass :=
  match type with
  | FieldType.UInt8 => UInt8
  | FieldType.UInt16 => UInt16
  | FieldType.UInt32 => UInt32
  | FieldType.String => StringClass
  | FieldType.Binary => BinaryClass
  end.

(** [fieldMap[typeData[0] as FieldType]]: the key is whatever the first
    element of the buffer is, and the lookup gives [undefined] (here
    [None]) for a key the object does not have. *)
Definition fieldMap_lookup (key : option byte) : option FieldClass :=
  match key with
  | Some x0f => Some UInt8
  | Some x10 => Some UInt16
  | Some x11 => Some UInt32
  | Some x26 => Some StringClass
  | Some x14 => Some BinaryClass
  | _ => None
  end.

#[global] Instance FieldType_eq_dec : EqDecision FieldType.t.
Proof. solve_decision. Defined.

(** ** Reading a field from a stream *)

(** What the promise returned by [stream.read(size)] of a
    [PromiseReadable<any>] resolves to. *)
Inductive any :=
  | any_Buffer (data : Buffer)
  | any_string (data : jsstring)
  | any_undefined.

(** A readable stream: [stream_read stream size] is the outcome of
    [await stream.read(size)] and the stream afterwards. *)
Class PromiseReadable (S : Type) := stream_read : S -> Z -> result any * S.

(** Computations that read from the stream and may throw. *)
Definition M (S A : Type) : Type := S -> result A * S.

Definition ret {S A} (a : A) : M S A := fun stream => (Ok a, stream).

Definition throw {S A} (e : error) : M S A := fun stream => (Throw e, stream).

Definition lift {S A} (r : result A) : M S A := fun stream => (r, stream).

Definition bindM {S A B} (m : M S A) (k : A -> M S B) : M S B :=
  fun stream =>
    match m stream with
    | (Ok a, stream) => k a stream
    | (Throw e, stream) => (Throw e, stream)
    | (Pending, stream) => (Pending, stream)
    end.

Notation "'await!' x ':=' e 'in' k" := (bindM e (fun x => k))
  (at level 10, x name, e at level 100, k at level 200).

(** [read(stream, bytes)]: whatever [Buffer] the stream gives is
    returned; anything else throws. *)
Definition read {S} `{PromiseReadable S} (bytes : Z) : M S Buffer :=
  fun stream =>
    match stream_read stream bytes with
    | (Ok (any_Buffer data), stream) => (Ok data, stream)
    | (Ok _, stream) => (Throw ExpectedBuffer, stream)
    | (Throw e, stream) => (Throw e, stream)
    | (Pending, stream) => (Pending, stream)
    end.

(** [readField(stream, expect?)]. When [fieldMap] has no entry for the
    leading byte, [Field] is [undefined] and the first property read
    from it ([Field.type] when [expect] is given, [Field.bytesToRead]
    otherwise) throws a [TypeError]. *)
Definition readField {S} `{PromiseReadable S} (expect : option FieldType.t) : M S Field :=
  await! typeData := read 1 in
  match fieldMap_lookup (typeData !! 0%nat) with
  | None => throw TypeError_undefined
  | Some Field =>
      await! _ :=
        match expect with
        | Some expect =>
            if bool_decide (static_type Field <> Some expect)
            then throw (ExpectedButGot (name (fieldMap expect)) (name Field))
            else ret tt
        | None => ret tt
        end in
      await! nextByteCount :=
        match bytesToRead Field with
        | Some count => ret (Z.of_nat count)
        | None =>
            await! lengthData := read 4 in
            lift (Buf.readUInt32BE lengthData 0)
        end in
      await! payload := read nextByteCount in
      lift (new Field payload)
  end.

(** A stream that has received all its bytes and has ended without
    having emitted ['end'] yet, as a socket the peer has closed, read
    through [PromiseReadable.read]. Node's [readable.read(size)] first
    refuses a size above 1 GiB ([ERR_OUT_OF_RANGE], which rejects the
    promise). It then gives [size] bytes when that many are buffered
    and otherwise all the bytes that remain; with nothing left it
    returns [null], the stream emits ['end'] and the promise resolves
    to [undefined]. [readable.read(0)] always returns [null]: with
    bytes still buffered ['end'] is never emitted, and the promise
    never settles. *)
Inductive EndedStream := Ended (remaining : list byte).

Definition remaining (stream : EndedStream) : list byte :=
  match stream with Ended remaining => remaining end.

(** The largest size [readable.read] accepts: [0x40000000]. *)
Definition MAX_HWM : Z := 0x40000000.

#[global] Instance EndedStream_read : PromiseReadable EndedStream :=
  fun stream size =>
    if MAX_HWM <? size then (Throw ERR_OUT_OF_RANGE_size, stream)
    else
      match remaining stream with
      | [] => (Ok any_undefined, stream)
      | _ :: _ =>
          if size <=? 0 then (Pending, stream)
          else (Ok (any_Buffer (take (Z.to_nat size) (remaining stream))),
                Ended (drop (Z.to_nat size) (remaining stream)))
      end.

(** ** The status handler of the CLI *)

Module Cli.

(** The properties of a status the handler reads. *)
Record State := {
  deviceId : Z;
  trackId : Z;
  trackDeviceId : Z;
  trackSlot : Z;
  trackType : Z;
}.

(** What the handler does once past its guard: it logs the track id
    and goes on to fetch the track of that device. *)
Inductive TrackLoaded := trackLoaded (deviceId trackId : Z).

(** One call of the handler registered on ['status'], up to its first
    [await]: the [lastTid] map afterwards and what was emitted. *)
Definition on_status (lastTid : gmap Z Z) (state : State)
    : gmap Z Z * list TrackLoaded :=
  if bool_decide (lastTid !! deviceId state = Some (trackId state))
  then (lastTid, [])
  else (<[deviceId state := trackId state]> lastTid,
        [trackLoaded (deviceId state) (trackId state)]).

(** The handler over the statuses the emitter delivers, in order. *)
Fixpoint run (lastTid : gmap Z Z) (states : list State)
    : gmap Z Z * list TrackLoaded :=
  match states with
  | [] => (lastTid, [])
  | state :: states =>
      let (lastTid, emitted) := on_status lastTid state in
      let (lastTid, later) := run lastTid states in
      (lastTid, emitted ++ later)
  end.

(** [const lastTid = new Map()] *)
Definition lastTid0 : gmap Z Z := ∅.

(** The track id of the latest status of [device] in [states]. *)
Fixpoint last_trackId (device : Z) (states : list State) : option Z :=
  match states with
  | [] => None
  | state :: states =>
      match last_trackId device states with
      | Some track => Some track
      | None => if bool_decide (deviceId state = device)
                then Some (trackId state) else None
      end
  end.

End Cli.

(** ** The vocabulary of the statements *)

(** The [n]-byte big-endian representation of [z], and the unsigned
    integer a sequence of bytes is the big-endian representation of. *)
Fixpoint be_bytes (n : nat) (z : Z) : list byte :=
  match n with
  | O => []
  | S n => be_bytes n (z / 256) ++ [Z_to_byte z]
  end.

Definition uint_be (bs : list byte) : Z :=
  fold_left (fun acc b => acc * 256 + byte_to_Z b) bs 0.

(** The largest value of a number field: [2^(8 * bytes) - 1]. *)
Definition max_value (type : NumberFieldType) : Z :=
  2 ^ (8 * Z.of_nat (bytes (numberBufferInfo type))) - 1.

(** UTF-16 big-endian text: the bytes of a string and the string of a
    sequence of bytes. *)
Fixpoint utf16be (s : jsstring) : list byte :=
  match s with
  | [] => []
  | c :: s => Z_to_byte (c / 256) :: Z_to_byte c :: utf16be s
  end.

Fixpoint utf16be_text (bs : list byte) : jsstring :=
  match bs with
  | hi :: lo :: bs => (byte_to_Z hi * 256 + byte_to_Z lo) :: utf16be_text bs
  | _ => []
  end.

(** The type a field object belongs to. *)
Definition type_of (f : Field) : FieldType.t :=
  match f with
  | NumberField type _ _ => FieldType_of type
  | StringField _ _ => FieldType.String
  | BinaryField _ _ => FieldType.Binary
  end.

Definition tag_byte (type : FieldType.t) : byte := Z_to_byte (FieldType.value type).

(** The byte count a tag implies, for the fixed-size fields. *)
Definition fixed_size (type : FieldType.t) : option nat := bytesToRead (fieldMap type).

(** The wire bytes of a field of the given type and payload: the tag,
    for a variable field the 4-byte big-endian length of the payload,
    and the payload. *)
Definition wire (type : FieldType.t) (payload : Buffer) : Buffer :=
  match fixed_size type with
  | Some _ => tag_byte type :: payload
  | None => tag_byte type :: be_bytes 4 (Z.of_nat (length payload)) ++ payload
  end.

(** The payload of wire bytes: what follows the tag and, for a variable
    field, the length. *)
Definition payload (type : FieldType.t) (bs : Buffer) : Buffer :=
  match fixed_size type with
  | Some _ => drop 1 bs
  | None => drop 5 bs
  end.

(** [buffer.constants.MAX_STRING_LENGTH]: the largest number of code
    units a string can have (on 64-bit builds). *)
Definition MAX_STRING_LENGTH : Z := 2 ^ 29 - 24.

(** A payload a field of the given type can have on the wire: the byte
    count of the tag for a fixed field; a length that fits the 4-byte
    length field for a variable one and, for a string, a whole number
    of 16-bit units, no more of them than a string can have. *)
Definition well_formed (type : FieldType.t) (payload : Buffer) : Prop :=
  match fixed_size type with
  | Some count => length payload = count
  | None =>
      Z.of_nat (length payload) < 2 ^ 32
      /\ (type = FieldType.String ->
          Nat.even (length payload) = true
          /\ Z.of_nat (length payload) <= 2 * MAX_STRING_LENGTH)
  end.

(** [decode(tag, payload)]: the field [readField] builds from a payload
    read under a tag. *)
Definition decode (type : FieldType.t) (payload : Buffer) : result Field :=
  new (fieldMap type) payload.

(** The typed values fields are made from, and the field a value makes. *)
Inductive FieldValue :=
  | number_value (type : NumberFieldType) (value : Z)
  | string_value (value : jsstring)
  | binary_value (value : Buffer).

Definition make (v : FieldValue) : result Field :=
  match v with
  | number_value type value => new_Number type (of_number (int value))
  | string_value value => new_String (of_string value)
  | binary_value value => new_Binary value
  end.

Definition valid_value (v : FieldValue) : Prop :=
  match v with
  | number_value type value => 0 <= value <= max_value type
  | string_value value =>
      valid_string value /\ Z.of_nat (length value) <= MAX_STRING_LENGTH
  | binary_value value => Z.of_nat (length value) < 2 ^ 32
  end.

(** A number is out of the range of a number field when it compares
    above its largest value or below 0. *)
Definition out_of_range (type : NumberFieldType) (value : number) : bool :=
  number_gt value (max_value type) || number_lt value 0.

(** The payload the specification gives a value: its big-endian bytes,
    its UTF-16 big-endian text, or the bytes themselves. *)
Definition payload_of (v : FieldValue) : Buffer :=
  match v with
  | number_value type value => be_bytes (bytes (numberBufferInfo type)) value
  | string_value value => utf16be value
  | binary_value value => value
  end.

Definition type_of_value (v : FieldValue) : FieldType.t :=
  match v with
  | number_value type _ => FieldType_of type
  | string_value _ => FieldType.String
  | binary_value _ => FieldType.Binary
  end.


(** The field of a value: of the type of the value, with the value as
    its value and, as its data, the payload the specification gives
    the value. *)
Definition field_of (v : FieldValue) : Field :=
  match v with
  | number_value type value =>
      NumberField type (be_bytes (bytes (numberBufferInfo type)) value) (int value)
  | string_value value => StringField (utf16be value) value
  | binary_value value => BinaryField value value
  end.

(** A value made into a field, the field encoded, and the payload of the
    encoding decoded under the tag of the field. *)
Definition there_and_back (v : FieldValue) : result Field :=
  try! f := make v in
  try! bs := buffer f in
  decode (type_of f) (payload (type_of f) bs).

(** What [readField] makes of the first [n] bytes of the wire bytes of a
    field, when the stream ends there: nothing left to read where a
    read is due throws [ExpectedBuffer]; a short length, or a short
    payload of a number field, throws in the [Buffer] read; a declared
    length above 1 GiB is refused by the stream; a short payload of a
    variable field is decoded as it is. *)
Definition truncated (type : FieldType.t) (p : Buffer) (n : nat) : result Field :=
  match fixed_size type with
  | Some _ =>
      if (n <=? 1)%nat then Throw ExpectedBuffer
      else Throw ERR_OUT_OF_RANGE_offset
  | None =>
      if (n <=? 1)%nat then Throw ExpectedBuffer
      else if (n <? 5)%nat then Throw ERR_OUT_OF_RANGE_offset
      else if MAX_HWM <? Z.of_nat (length p) then Throw ERR_OUT_OF_RANGE_size
      else if (n =? 5)%nat then Throw ExpectedBuffer
      else decode type (take (n - 5) p)
  end.

(** ** The vocabulary of the further statements *)

(** Two fields read one after the other from one stream, as a caller
    that awaits [readField] twice does. *)
Definition readField_twice {S} `{PromiseReadable S} : M S (Field * Field) :=
  await! first := readField None in
  await! second := readField None in
  ret (first, second).

(** The device and the track id of an emission of the status handler. *)
Definition emitted_device (e : Cli.TrackLoaded) : Z :=
  match e with Cli.trackLoaded device _ => device end.

Definition emitted_track (e : Cli.TrackLoaded) : Z :=
  match e with Cli.trackLoaded _ track => track end.

(** The emissions for one device, and the statuses of one device. *)
Definition emitted_for (device : Z) (emitted : list Cli.TrackLoaded)
    : list Cli.TrackLoaded :=
  filter (fun e => emitted_device e = device) emitted.

Definition statuses_of (device : Z) (states : list Cli.State) : list Cli.State :=
  filter (fun state => Cli.deviceId state = device) states.

(** A sequence of track ids with every run of one id reduced to its
    first element, a leading run of [previous] removed altogether. *)
Fixpoint collapse (previous : option Z) (tracks : list Z) : list Z :=
  match tracks with
  | [] => []
  | track :: tracks =>
      if bool_decide (previous = Some track)
      then collapse previous tracks
      else track :: collapse (Some track) tracks
  end.

(** * Properties *)

(** ** Bytes and big-endian integers *)

Lemma byte_to_Z_range (b : byte) : 0 <= byte_to_Z b < 256.
Proof.
  unfold byte_to_Z. pose proof (Byte.to_N_bounded b). lia.
Qed.

Lemma byte_to_Z_to_byte (b : byte) : Z_to_byte (byte_to_Z b) = b.
Proof.
  unfold Z_to_byte. pose proof (byte_to_Z_range b) as Hb.
  rewrite Z.mod_small by lia. unfold byte_to_Z.
  rewrite N2Z.id, Byte.of_to_N. reflexivity.
Qed.

Lemma Z_to_byte_to_Z (z : Z) : byte_to_Z (Z_to_byte z) = z mod 256.
Proof.
  unfold Z_to_byte, byte_to_Z.
  assert (Hm : 0 <= z mod 256 < 256) by (apply Z.mod_pos_bound; lia).
  destruct (Byte.of_N (Z.to_N (z mod 256))) as [b|] eqn:E.
  - apply Byte.to_of_N in E. rewrite E. lia.
  - apply Byte.of_N_None_iff in E. lia.
Qed.

Lemma Z_to_byte_mod (z : Z) : Z_to_byte (z mod 256) = Z_to_byte z.
Proof. unfold Z_to_byte. rewrite Z.mod_mod by lia. reflexivity. Qed.

Lemma Z_to_byte_eq (a b : Z) : a mod 256 = b mod 256 -> Z_to_byte a = Z_to_byte b.
Proof. intros H. unfold Z_to_byte. rewrite H. reflexivity. Qed.

Lemma length_be_bytes (n : nat) (z : Z) : length (be_bytes n z) = n.
Proof.
  revert z. induction n as [|n IH]; intros z; simpl; [reflexivity|].
  rewrite length_app, IH. simpl. lia.
Qed.

Lemma uint_be_snoc (bs : list byte) (b : byte) :
  uint_be (bs ++ [b]) = uint_be bs * 256 + byte_to_Z b.
Proof. unfold uint_be. rewrite fold_left_app. reflexivity. Qed.

Lemma uint_be_range (bs : list byte) : 0 <= uint_be bs < 256 ^ Z.of_nat (length bs).
Proof.
  induction bs as [|b bs IH] using rev_ind.
  - unfold uint_be. simpl. lia.
  - rewrite uint_be_snoc, length_app. simpl.
    replace (Z.of_nat (length bs + 1)) with (Z.succ (Z.of_nat (length bs))) by lia.
    rewrite Z.pow_succ_r by lia.
    pose proof (byte_to_Z_range b). lia.
Qed.

Lemma uint_be_be_bytes (n : nat) (z : Z) :
  uint_be (be_bytes n z) = z mod 256 ^ Z.of_nat n.
Proof.
  revert z. induction n as [|n IH]; intros z.
  - simpl. rewrite Z.mod_1_r. reflexivity.
  - cbn [be_bytes]. rewrite uint_be_snoc, IH, Z_to_byte_to_Z.
    replace (Z.of_nat (S n)) with (Z.succ (Z.of_nat n)) by lia.
    rewrite Z.pow_succ_r by lia.
    rewrite Z.rem_mul_r by lia. lia.
Qed.

Lemma be_bytes_uint_be (bs : list byte) : be_bytes (length bs) (uint_be bs) = bs.
Proof.
  induction bs as [|b bs IH] using rev_ind; [reflexivity|].
  rewrite length_app, uint_be_snoc. simpl length.
  replace (length bs + 1)%nat with (S (length bs)) by lia.
  cbn [be_bytes]. pose proof (byte_to_Z_range b) as Hb.
  replace ((uint_be bs * 256 + byte_to_Z b) / 256) with (uint_be bs).
  - rewrite IH. f_equal. f_equal.
    rewrite <- (byte_to_Z_to_byte b) at 2. apply Z_to_byte_eq.
    rewrite Z.add_comm, Z.mod_add by lia. reflexivity.
  - symmetry. rewrite Z.add_comm, Z.div_add by lia.
    rewrite Z.div_small by lia. reflexivity.
Qed.

(** ** Numbers *)

Lemma number_gt_int (z bound : Z) : number_gt (int z) bound = (bound <? z).
Proof.
  unfold number_gt, int, Qle_bool, inject_Z. simpl.
  rewrite !Z.mul_1_r. lia.
Qed.

Lemma number_lt_int (z bound : Z) : number_lt (int z) bound = (z <? bound).
Proof.
  unfold number_lt, int, Qle_bool, inject_Z. simpl.
  rewrite !Z.mul_1_r. lia.
Qed.

Lemma ToInteger_int (z : Z) : ToInteger (int z) = z.
Proof. unfold ToInteger, int, inject_Z. simpl. apply Z.quot_1_r. Qed.

(** A number that passes the range check has its integer part in the
    range. *)
Lemma ToInteger_in_range (value : number) (max : Z) :
  0 <= max ->
  number_gt value max || number_lt value 0 = false ->
  0 <= ToInteger value <= max.
Proof.
  intros Hmax H. apply orb_false_elim in H as [Hgt Hlt].
  destruct value as [q| |negative]; simpl in *; [|lia|lia].
  apply negb_false_iff, Qle_bool_iff in Hgt, Hlt.
  unfold Qle in Hgt, Hlt. simpl in Hgt, Hlt.
  rewrite Z.mul_1_r in Hgt, Hlt.
  rewrite Z.quot_div_nonneg by lia.
  split.
  - apply Z.div_pos; lia.
  - apply Z.div_le_upper_bound; lia.
Qed.

(** ** The number fields *)

Lemma max_value_nonneg (type : NumberFieldType) : 0 <= max_value type.
Proof. destruct type; vm_compute; discriminate. Qed.

(** The write method of each width, on a fresh buffer of that width:
    a range check, then the big-endian bytes of the integer part. *)
Lemma writeFn_alloc (type : NumberFieldType) (value : number) :
  writeFn (numberBufferInfo type) (Buf.alloc (bytes (numberBufferInfo type))) value
  = if out_of_range type value then Throw ERR_OUT_OF_RANGE_value
    else Ok (be_bytes (bytes (numberBufferInfo type)) (ToInteger value)).
Proof.
  unfold out_of_range.
  destruct (number_gt value (max_value type) || number_lt value 0) eqn:E.
  - destruct type; simpl;
      unfold Buf.writeUInt8, Buf.writeUInt16BE, Buf.writeUInt32BE, Buf.checkInt;
      change (max_value NUInt8) with 255 in E;
      change (max_value NUInt16) with 65535 in E;
      change (max_value NUInt32) with 4294967295 in E;
      rewrite E; reflexivity.
  - pose proof (ToInteger_in_range value _ (max_value_nonneg type) E) as Hr.
    destruct type; simpl;
      unfold Buf.writeUInt8, Buf.writeUInt16BE, Buf.writeUInt32BE, Buf.checkInt;
      change (max_value NUInt8) with 255 in E, Hr;
      change (max_value NUInt16) with 65535 in E, Hr;
      change (max_value NUInt32) with 4294967295 in E, Hr;
      rewrite E; simpl; unfold ToUint8, ToUint32;
      rewrite ?Z.shiftr_div_pow2 by lia;
      rewrite ?(Z.mod_small (ToInteger value) (2 ^ 32)) by lia;
      reflexivity.
Qed.

(** The read method of each width: it needs that many bytes, reads the
    first ones and ignores the rest. *)
Lemma readFn_take (type : NumberFieldType) (p : Buffer) :
  readFn (numberBufferInfo type) p
  = if (length p <? bytes (numberBufferInfo type))%nat
    then Throw ERR_OUT_OF_RANGE_offset
    else Ok (uint_be (take (bytes (numberBufferInfo type)) p)).
Proof.
  destruct type; simpl.
  - destruct p as [|a p]; reflexivity.
  - destruct p as [|a [|b p]]; reflexivity.
  - destruct p as [|a [|b [|c [|d p]]]]; try reflexivity.
    simpl. rewrite take_0. unfold Buf.readUInt32BE, uint_be. simpl. f_equal. lia.
Qed.

Lemma new_Number_of_Buffer (type : NumberFieldType) (p : Buffer) :
  new_Number type (of_Buffer p)
  = if (length p <? bytes (numberBufferInfo type))%nat
    then Throw ERR_OUT_OF_RANGE_offset
    else Ok (NumberField type p
               (int (uint_be (take (bytes (numberBufferInfo type)) p)))).
Proof.
  unfold new_Number, parseNumber. rewrite readFn_take.
  destruct (length p <? bytes (numberBufferInfo type))%nat; reflexivity.
Qed.

Lemma new_Number_of_number (type : NumberFieldType) (value : number) :
  new_Number type (of_number value)
  = if out_of_range type value then Throw ERR_OUT_OF_RANGE_value
    else Ok (NumberField type
               (be_bytes (bytes (numberBufferInfo type)) (ToInteger value))
               value).
Proof.
  unfold new_Number, parseNumber. rewrite writeFn_alloc.
  destruct (out_of_range type value); reflexivity.
Qed.

Lemma out_of_range_int (type : NumberFieldType) (z : Z) :
  out_of_range type (int z) = negb ((0 <=? z) && (z <=? max_value type)).
Proof.
  unfold out_of_range. rewrite number_gt_int, number_lt_int. lia.
Qed.

Lemma decode_number (type : NumberFieldType) (p : Buffer) :
  decode (FieldType_of type) p = new_Number type (of_Buffer p).
Proof. destruct type; reflexivity. Qed.

(** ** The variable fields *)

Lemma tag_in_range (type : FieldType.t) :
  number_gt (int (FieldType.value type)) 255
  || number_lt (int (FieldType.value type)) 0 = false.
Proof. destruct type; reflexivity. Qed.

Lemma alloc_header (n : nat) :
  Buf.alloc (n + 4 + 1) = x00 :: x00 :: x00 :: x00 :: x00 :: replicate n x00.
Proof.
  unfold Buf.alloc. replace (n + 4 + 1)%nat with (5 + n)%nat by lia. reflexivity.
Qed.

(** [makeVariableBuffer] lays out the tag, the 4-byte big-endian length
    of the data and the data, as long as the length fits 32 bits. *)
Lemma makeVariableBuffer_layout (type : FieldType.t) (fieldData : Buffer) :
  Z.of_nat (length fieldData) < 2 ^ 32 ->
  makeVariableBuffer type fieldData
  = Ok (tag_byte type :: be_bytes 4 (Z.of_nat (length fieldData)) ++ fieldData).
Proof.
  intros Hlen. unfold makeVariableBuffer. rewrite alloc_header.
  unfold Buf.writeUInt8. rewrite tag_in_range. cbn [lookup list_lookup bind].
  unfold Buf.writeUInt32BE, Buf.checkInt.
  rewrite number_gt_int, number_lt_int.
  replace (4294967295 <? Z.of_nat (length fieldData)) with false by lia.
  replace (Z.of_nat (length fieldData) <? 0) with false by lia.
  cbn -[Z.shiftr Z_to_byte ToUint32 be_bytes Z.of_nat Z.pow].
  unfold ToUint8, ToUint32. rewrite !ToInteger_int.
  rewrite (Z.mod_small _ (2 ^ 32)) by lia.
  rewrite !Z.shiftr_div_pow2 by lia.
  rewrite ?Nat.sub_0_r, ?length_replicate, firstn_all, take_0.
  rewrite drop_ge by (rewrite length_replicate; lia).
  rewrite app_nil_r. reflexivity.
Qed.

(** ** Strings *)

(** Induction over a list two elements at a time. *)
Lemma pairs_ind {A} (P : list A -> Prop) :
  P [] -> (forall a, P [a]) -> (forall a b l, P l -> P (a :: b :: l)) ->
  forall l, P l.
Proof.
  intros Hnil Hone Hstep l.
  assert (H : P l /\ forall a, P (a :: l)).
  { induction l as [|b l [IH1 IH2]]; split; auto. }
  apply H.
Qed.

Lemma length_utf16be (s : jsstring) : length (utf16be s) = (2 * length s)%nat.
Proof. induction s as [|c s IH]; simpl; lia. Qed.

Lemma even_length_utf16be (s : jsstring) : Nat.even (length (utf16be s)) = true.
Proof.
  rewrite length_utf16be. apply Nat.even_spec. exists (length s). lia.
Qed.

Lemma swap_pairs_from_utf16le (s : jsstring) :
  Buf.swap_pairs (Buf.from_utf16le s) = utf16be s.
Proof.
  induction s as [|c s IH]; [reflexivity|].
  cbn [Buf.from_utf16le Buf.swap_pairs utf16be].
  rewrite IH, Z.shiftr_div_pow2 by lia. reflexivity.
Qed.

Lemma length_swap_pairs (p : Buffer) : length (Buf.swap_pairs p) = length p.
Proof.
  induction p as [| |a b p IH] using pairs_ind; simpl; congruence.
Qed.

Lemma toString_swap_pairs (p : Buffer) :
  Buf.toString_utf16le (Buf.swap_pairs p) = utf16be_text p.
Proof.
  induction p as [| |a b p IH] using pairs_ind; try reflexivity.
  cbn [Buf.swap_pairs Buf.toString_utf16le utf16be_text].
  rewrite IH. f_equal. lia.
Qed.

Lemma utf16be_text_utf16be (s : jsstring) :
  valid_string s -> utf16be_text (utf16be s) = s.
Proof.
  induction 1 as [|c s Hc _ IH]; [reflexivity|].
  cbn [utf16be utf16be_text]. rewrite IH, !Z_to_byte_to_Z.
  unfold is_code_unit in Hc. f_equal.
  rewrite (Z.mod_small (c / 256)).
  - pose proof (Z.div_mod c 256). lia.
  - split; [apply Z.div_pos; lia | apply Z.div_lt_upper_bound; lia].
Qed.


Lemma valid_utf16be_text (p : Buffer) : valid_string (utf16be_text p).
Proof.
  induction p as [| |a b p IH] using pairs_ind; try constructor; [|exact IH].
  pose proof (byte_to_Z_range a). pose proof (byte_to_Z_range b).
  unfold is_code_unit. lia.
Qed.

(** [new String(string)]: the data are the UTF-16 big-endian bytes. *)
Lemma new_String_of_string (s : jsstring) :
  new_String (of_string s) = Ok (StringField (utf16be s) s).
Proof.
  unfold new_String, Buf.swap16.
  assert (Nat.even (length (Buf.from_utf16le s)) = true) as ->.
  { rewrite <- length_swap_pairs, swap_pairs_from_utf16le.
    apply even_length_utf16be. }
  cbn [bind]. rewrite swap_pairs_from_utf16le. reflexivity.
Qed.

(** [new String(buffer)]: throws on an odd length, and otherwise reads
    the buffer as UTF-16 big-endian text. *)
Lemma new_String_of_bytes (p : Buffer) :
  new_String (of_bytes p)
  = if Nat.even (length p) then Ok (StringField p (utf16be_text p))
    else Throw ERR_INVALID_BUFFER_SIZE.
Proof.
  unfold new_String, Buf.swap16.
  destruct (Nat.even (length p)); [|reflexivity].
  cbn [bind]. rewrite toString_swap_pairs. reflexivity.
Qed.

(** ** The wire layout *)

(** The [buffer] of a number field is its tag followed by its data,
    whatever the data are. *)
Lemma buffer_NumberField (type : NumberFieldType) (bs : Buffer) (value : number) :
  buffer (NumberField type bs value) = Ok (tag_byte (FieldType_of type) :: bs).
Proof.
  unfold buffer, Buf.from_array. cbn [map]. rewrite map_map.
  rewrite (map_ext _ id) by (intros b; apply byte_to_Z_to_byte).
  rewrite map_id. reflexivity.
Qed.

Lemma payload_wire (type : FieldType.t) (p : Buffer) :
  payload type (wire type p) = p.
Proof. unfold payload, wire. destruct (fixed_size type); reflexivity. Qed.

Lemma uint_be_small (n : nat) (z : Z) :
  0 <= z < 256 ^ Z.of_nat n -> uint_be (be_bytes n z) = z.
Proof. intros H. rewrite uint_be_be_bytes. apply Z.mod_small. exact H. Qed.

Lemma max_value_pow (type : NumberFieldType) :
  max_value type = 256 ^ Z.of_nat (bytes (numberBufferInfo type)) - 1.
Proof. destruct type; reflexivity. Qed.

Lemma make_valid (v : FieldValue) :
  valid_value v ->
  exists f, make v = Ok f /\ type_of f = type_of_value v /\ data f = payload_of v
            /\ buffer f = Ok (wire (type_of_value v) (payload_of v)).
Proof.
  destruct v as [type z|s|b]; cbn [make valid_value type_of_value payload_of];
    intros Hv.
  - rewrite new_Number_of_number, out_of_range_int.
    replace ((0 <=? z) && (z <=? max_value type)) with true by lia.
    cbn [negb]. rewrite ToInteger_int. eexists. split; [reflexivity|].
    rewrite buffer_NumberField. repeat split. destruct type; reflexivity.
  - rewrite new_String_of_string. eexists. split; [reflexivity|].
    repeat split. cbn [buffer]. apply makeVariableBuffer_layout.
    rewrite length_utf16be. destruct Hv as [_ Hlen].
    unfold MAX_STRING_LENGTH in Hlen. lia.
  - eexists. split; [reflexivity|]. repeat split.
    cbn [buffer]. apply makeVariableBuffer_layout. exact Hv.
Qed.

Lemma decode_number_well_formed (type : NumberFieldType) (p : Buffer) :
  length p = bytes (numberBufferInfo type) ->
  exists f, decode (FieldType_of type) p = Ok f
            /\ type_of f = FieldType_of type /\ data f = p
            /\ buffer f = Ok (wire (FieldType_of type) p).
Proof.
  intros Hlen. rewrite decode_number, new_Number_of_Buffer, Hlen, Nat.ltb_irrefl.
  eexists. split; [reflexivity|]. rewrite buffer_NumberField.
  repeat split. destruct type; reflexivity.
Qed.

Lemma decode_well_formed (type : FieldType.t) (p : Buffer) :
  well_formed type p ->
  exists f, decode type p = Ok f /\ type_of f = type /\ data f = p
            /\ buffer f = Ok (wire type p).
Proof.
  destruct type; intros Hwf.
  - apply (decode_number_well_formed NUInt8), Hwf.
  - apply (decode_number_well_formed NUInt16), Hwf.
  - apply (decode_number_well_formed NUInt32), Hwf.
  - destruct Hwf as [Hlen Heven]. unfold decode. cbn [fieldMap new].
    rewrite new_String_of_bytes, (proj1 (Heven eq_refl)).
    eexists; split; [reflexivity|]. repeat split.
    cbn [buffer]. apply makeVariableBuffer_layout. exact Hlen.
  - destruct Hwf as [Hlen _]. unfold decode. cbn [fieldMap new new_Binary].
    eexists; split; [reflexivity|]. repeat split.
    cbn [buffer]. apply makeVariableBuffer_layout. exact Hlen.
Qed.

(** ** The round trip *)

Lemma decode_make (v : FieldValue) :
  valid_value v ->
  exists f, make v = Ok f
            /\ buffer f = Ok (wire (type_of f) (data f))
            /\ decode (type_of f) (data f) = Ok f.
Proof.
  destruct v as [type z|s|b]; cbn [make valid_value]; intros Hv.
  - rewrite new_Number_of_number, out_of_range_int.
    replace ((0 <=? z) && (z <=? max_value type)) with true by lia.
    cbn [negb]. rewrite ToInteger_int. eexists. split; [reflexivity|].
    cbn [type_of data]. rewrite buffer_NumberField. split.
    + destruct type; reflexivity.
    + rewrite decode_number, new_Number_of_Buffer, length_be_bytes, Nat.ltb_irrefl.
      rewrite take_ge by (rewrite length_be_bytes; lia).
      rewrite uint_be_small; [reflexivity|].
      rewrite max_value_pow in Hv. lia.
  - rewrite new_String_of_string. eexists. split; [reflexivity|].
    cbn [type_of data buffer]. split.
    + apply makeVariableBuffer_layout. rewrite length_utf16be.
      destruct Hv as [_ Hlen]. unfold MAX_STRING_LENGTH in Hlen. lia.
    + unfold decode. cbn [fieldMap new].
      rewrite new_String_of_bytes, even_length_utf16be, utf16be_text_utf16be;
        [reflexivity | apply Hv].
  - eexists. split; [reflexivity|]. cbn [type_of data buffer]. split.
    + apply makeVariableBuffer_layout. exact Hv.
    + reflexivity.
Qed.

Lemma make_field_of (v : FieldValue) :
  valid_value v -> make v = Ok (field_of v).
Proof.
  destruct v as [type z|s|b]; cbn [make valid_value field_of]; intros Hv.
  - rewrite new_Number_of_number, out_of_range_int.
    replace ((0 <=? z) && (z <=? max_value type)) with true by lia.
    cbn [negb]. rewrite ToInteger_int. reflexivity.
  - apply new_String_of_string.
  - reflexivity.
Qed.

(** C1. Round-trip law. Every valid value of every field type (an
    integer from 0 to the largest value of its width, a string of
    UTF-16 code units, a binary buffer) makes the field of that value:
    of the type of the value, with the value as its value. The encoding
    of that field exists, and its payload, decoded under the tag of the
    value, gives the same field back, value included. And every
    well-formed wire byte sequence decodes to a field of its tag and
    payload whose encoding is that byte sequence. *)
Theorem roundtrip :
  (forall v : FieldValue, valid_value v ->
     make v = Ok (field_of v)
     /\ type_of (field_of v) = type_of_value v
     /\ exists bs, buffer (field_of v) = Ok bs
          /\ decode (type_of_value v) (payload (type_of_value v) bs)
             = Ok (field_of v))
  /\ (forall (type : FieldType.t) (p : Buffer), well_formed type p ->
        exists f, decode type (payload type (wire type p)) = Ok f
                  /\ type_of f = type /\ data f = p
                  /\ buffer f = Ok (wire type p)).
Proof.
  split.
  - intros v Hv. pose proof (make_field_of v Hv) as Hfield.
    destruct (decode_make v Hv) as (f & Hmake & Hbuf & Hdec).
    assert (f = field_of v) as -> by congruence.
    assert (Htype : type_of (field_of v) = type_of_value v)
      by (destruct v; reflexivity).
    split; [exact Hfield|]. split; [exact Htype|].
    exists (wire (type_of (field_of v)) (data (field_of v))).
    split; [exact Hbuf|]. rewrite <- Htype, payload_wire. exact Hdec.
  - intros type p Hwf. rewrite payload_wire.
    destruct (decode_well_formed type p Hwf) as (f & Hdec & Htype & Hdata & Hbuf).
    exists f. auto.
Qed.

(** The round trip at a string with a character outside ASCII and one
    outside the basic plane (a surrogate pair), and from the wire bytes
    of the largest [UInt32]. *)
Lemma roundtrip_witness :
  (valid_value (string_value [0xE9; 0xD83D; 0xDE00])
   /\ make (string_value [0xE9; 0xD83D; 0xDE00])
      = Ok (StringField [x00; xe9; xd8; x3d; xde; x00] [0xE9; 0xD83D; 0xDE00])
   /\ exists bs,
        buffer (StringField [x00; xe9; xd8; x3d; xde; x00] [0xE9; 0xD83D; 0xDE00])
        = Ok bs
        /\ decode FieldType.String (payload FieldType.String bs)
           = Ok (StringField [x00; xe9; xd8; x3d; xde; x00]
                   [0xE9; 0xD83D; 0xDE00]))
  /\ (well_formed FieldType.UInt32 [xff; xff; xff; xff]
      /\ exists f, decode FieldType.UInt32
                     (payload FieldType.UInt32
                        (wire FieldType.UInt32 [xff; xff; xff; xff])) = Ok f
                   /\ type_of f = FieldType.UInt32
                   /\ data f = [xff; xff; xff; xff]
                   /\ buffer f = Ok (wire FieldType.UInt32 [xff; xff; xff; xff])).
Proof.
  assert (Hs : valid_value (string_value [0xE9; 0xD83D; 0xDE00])).
  { split; [repeat constructor; unfold is_code_unit; lia
           | vm_compute; discriminate]. }
  assert (Hw : well_formed FieldType.UInt32 [xff; xff; xff; xff]) by reflexivity.
  split; [split; [exact Hs|]|split; [exact Hw|]].
  - destruct (proj1 roundtrip _ Hs) as (Hmake & _ & Hrest).
    split; [exact Hmake | exact Hrest].
  - apply (proj2 roundtrip _ _ Hw).
Defined.

(** The boundary values: each is made, encoded and decoded back. *)
Example roundtrip_boundaries :
  Forall (fun v => there_and_back v = make v /\ is_Ok (make v) = true)
    [number_value NUInt8 0; number_value NUInt8 255;
     number_value NUInt16 0; number_value NUInt16 65535;
     number_value NUInt32 0; number_value NUInt32 4294967295;
     string_value []; string_value [0xE9; 0xD83D; 0xDE00];
     binary_value []; binary_value [x00; xff]].
Proof. repeat constructor. Qed.

(** ** Decoding and constructing number fields *)

(** C4, as the code has it. Decoding a number field from a payload
    fails, with the out-of-range error of the [Buffer] read, exactly
    when the payload has fewer bytes than the width of the type; with
    at least that many bytes the value is the big-endian unsigned
    integer of the first 1, 2 or 4 bytes, and the data of the field are
    the whole payload. *)
Theorem number_decode (type : NumberFieldType) (p : Buffer) :
  decode (FieldType_of type) p
  = if (length p <? bytes (numberBufferInfo type))%nat
    then Throw ERR_OUT_OF_RANGE_offset
    else Ok (NumberField type p
               (int (uint_be (take (bytes (numberBufferInfo type)) p)))).
Proof. rewrite decode_number. apply new_Number_of_Buffer. Qed.

(** A [UInt8] payload of 2 bytes, not exactly 1, decodes without any
    failure. *)
Lemma number_decode_longer_payload :
  length [x01; x02] <> bytes (numberBufferInfo NUInt8)
  /\ decode FieldType.UInt8 [x01; x02] = Ok (NumberField NUInt8 [x01; x02] (int 1)).
Proof. split; [discriminate | reflexivity]. Qed.

(** C10, as the code has it. Constructing a number field from a number
    throws exactly when the number is above the largest value of the
    width or below 0: an integer outside [0, 2^N - 1], or an infinity.
    A number inside the range is accepted whether or not it is an
    integer, and so is [NaN]: the field keeps the number as its value,
    and its data are exactly 1, 2 or 4 bytes, the big-endian bytes of
    the integer part, which is within the range. A number field
    constructed from a buffer of at least that many bytes keeps the
    buffer as its data, whatever its length. *)
Theorem number_construct :
  (forall (type : NumberFieldType) (value : number),
     (out_of_range type value = true
      /\ new_Number type (of_number value) = Throw ERR_OUT_OF_RANGE_value)
     \/ (out_of_range type value = false
         /\ new_Number type (of_number value)
            = Ok (NumberField type
                    (be_bytes (bytes (numberBufferInfo type)) (ToInteger value))
                    value)
         /\ length (be_bytes (bytes (numberBufferInfo type)) (ToInteger value))
            = bytes (numberBufferInfo type)
         /\ 0 <= ToInteger value <= max_value type))
  /\ (forall (type : NumberFieldType) (z : Z),
        out_of_range type (int z) = negb ((0 <=? z) && (z <=? max_value type))
        /\ ToInteger (int z) = z)
  /\ (forall (type : NumberFieldType) (negative : bool),
        out_of_range type (Infinity negative) = true
        /\ out_of_range type NaN = false
        /\ ToInteger NaN = 0)
  /\ (forall (type : NumberFieldType) (p : Buffer),
        new_Number type (of_Buffer p)
        = if (length p <? bytes (numberBufferInfo type))%nat
          then Throw ERR_OUT_OF_RANGE_offset
          else Ok (NumberField type p
                     (int (uint_be (take (bytes (numberBufferInfo type)) p))))).
Proof.
  split; [|split; [|split]].
  - intros type value. rewrite new_Number_of_number.
    destruct (out_of_range type value) eqn:E; [left; auto | right].
    repeat split; try apply length_be_bytes;
      apply (ToInteger_in_range value _ (max_value_nonneg type) E).
  - intros type z. split; [apply out_of_range_int | apply ToInteger_int].
  - intros type negative. destruct type, negative; repeat split.
  - exact new_Number_of_Buffer.
Qed.

(** The number 3/2 makes a [UInt8] field: nothing is thrown, the value
    stays 3/2 and the data hold 1. And the field constructed from a
    buffer of 3 bytes has those 3 bytes as its data. *)
Lemma number_construct_not_checked :
  new_Number NUInt8 (of_number (Finite (3 # 2)))
  = Ok (NumberField NUInt8 [x01] (Finite (3 # 2)))
  /\ new_Number NUInt8 (of_Buffer [x01; x02; x03])
     = Ok (NumberField NUInt8 [x01; x02; x03] (int 1)).
Proof. split; reflexivity. Qed.

(** ** Encoding *)

Lemma length_wire (type : FieldType.t) (p : Buffer) :
  length (wire type p)
  = match fixed_size type with
    | Some _ => (1 + length p)%nat
    | None => (5 + length p)%nat
    end.
Proof.
  unfold wire. destruct (fixed_size type); [reflexivity|].
  cbn [length]. rewrite length_app, length_be_bytes. lia.
Qed.

(** C5, as the code has it. The encoding of a number field is its tag
    byte followed by its data. For a field made from an integer of the
    range, and for a field decoded from a payload of exactly 1, 2 or 4
    bytes, these are the big-endian bytes of the value, and the encoding
    has 1 + N bytes. The encoding of a string or binary field whose data
    are shorter than 2^32 bytes is the tag byte, the 4-byte big-endian
    length of the data, and the data: 5 bytes and the payload. *)
Theorem encode_layout :
  (forall (type : NumberFieldType) (bs : Buffer) (value : number),
     buffer (NumberField type bs value) = Ok (tag_byte (FieldType_of type) :: bs))
  /\ (forall (type : NumberFieldType) (z : Z), 0 <= z <= max_value type ->
        exists f, make (number_value type z) = Ok f
          /\ buffer f
             = Ok (tag_byte (FieldType_of type)
                   :: be_bytes (bytes (numberBufferInfo type)) z)
          /\ length (tag_byte (FieldType_of type)
                     :: be_bytes (bytes (numberBufferInfo type)) z)
             = (1 + bytes (numberBufferInfo type))%nat)
  /\ (forall (type : NumberFieldType) (p : Buffer),
        length p = bytes (numberBufferInfo type) ->
        decode (FieldType_of type) p = Ok (NumberField type p (int (uint_be p)))
        /\ p = be_bytes (bytes (numberBufferInfo type)) (uint_be p)
        /\ buffer (NumberField type p (int (uint_be p)))
           = Ok (tag_byte (FieldType_of type) :: p))
  /\ (forall f : Field,
        type_of f = FieldType.String \/ type_of f = FieldType.Binary ->
        Z.of_nat (length (data f)) < 2 ^ 32 ->
        buffer f
        = Ok (tag_byte (type_of f)
              :: be_bytes 4 (Z.of_nat (length (data f))) ++ data f)
        /\ length (tag_byte (type_of f)
                   :: be_bytes 4 (Z.of_nat (length (data f))) ++ data f)
           = (5 + length (data f))%nat).
Proof.
  split; [exact buffer_NumberField|]. split; [|split].
  - intros type z Hz.
    destruct (make_valid (number_value type z) Hz) as (f & Hmake & _ & _ & Hbuf).
    exists f. split; [exact Hmake|]. split.
    + rewrite Hbuf. destruct type; reflexivity.
    + cbn [length]. rewrite length_be_bytes. reflexivity.
  - intros type p Hlen.
    rewrite decode_number, new_Number_of_Buffer, Hlen, Nat.ltb_irrefl.
    rewrite <- Hlen, firstn_all. split; [reflexivity|]. split.
    + symmetry. apply be_bytes_uint_be.
    + apply buffer_NumberField.
  - intros f Htype Hlen. split.
    + destruct f as [type bs value|bs value|bs value]; cbn [type_of data buffer] in *.
      * destruct type, Htype; discriminate.
      * apply makeVariableBuffer_layout, Hlen.
      * apply makeVariableBuffer_layout, Hlen.
    + cbn [length]. rewrite length_app, length_be_bytes. lia.
Qed.

(** The layout at the [UInt16] 0x1234, made and decoded, and at the
    string "A". *)
Lemma encode_layout_witness :
  (0 <= 4660 <= max_value NUInt16
   /\ exists f, make (number_value NUInt16 4660) = Ok f
        /\ buffer f = Ok (tag_byte FieldType.UInt16 :: be_bytes 2 4660)
        /\ length (tag_byte FieldType.UInt16 :: be_bytes 2 4660) = 3%nat)
  /\ (length [x12; x34] = 2%nat
      /\ decode FieldType.UInt16 [x12; x34]
         = Ok (NumberField NUInt16 [x12; x34] (int (uint_be [x12; x34])))
      /\ [x12; x34] = be_bytes 2 (uint_be [x12; x34])
      /\ buffer (NumberField NUInt16 [x12; x34] (int (uint_be [x12; x34])))
         = Ok (tag_byte FieldType.UInt16 :: [x12; x34]))
  /\ (Z.of_nat (length [x00; x41]) < 2 ^ 32
      /\ buffer (StringField [x00; x41] [0x41])
         = Ok (tag_byte FieldType.String :: be_bytes 4 2 ++ [x00; x41])
      /\ length (tag_byte FieldType.String :: be_bytes 4 2 ++ [x00; x41]) = 7%nat).
Proof.
  assert (H1 : 0 <= 4660 <= max_value NUInt16) by (vm_compute; split; discriminate).
  assert (H2 : length [x12; x34] = bytes (numberBufferInfo NUInt16)) by reflexivity.
  assert (H3 : Z.of_nat (length (data (StringField [x00; x41] [0x41]))) < 2 ^ 32)
    by reflexivity.
  split; [split; [exact H1|]|split; [split; [reflexivity|]|split; [exact H3|]]].
  - exact (proj1 (proj2 encode_layout) NUInt16 4660 H1).
  - exact (proj1 (proj2 (proj2 encode_layout)) NUInt16 [x12; x34] H2).
  - exact (proj2 (proj2 (proj2 encode_layout)) (StringField [x00; x41] [0x41])
             (or_introl eq_refl) H3).
Defined.

(** A [UInt8] field decoded from 2 bytes encodes to 3 bytes, not to
    1 + 1. *)
Lemma encode_longer_number_field :
  decode FieldType.UInt8 [x01; x02] = Ok (NumberField NUInt8 [x01; x02] (int 1))
  /\ buffer (NumberField NUInt8 [x01; x02] (int 1)) = Ok [x0f; x01; x02]
  /\ length [x0f; x01; x02] <> (1 + bytes (numberBufferInfo NUInt8))%nat.
Proof. split; [reflexivity|]. split; [reflexivity | discriminate]. Qed.

(** ** Decoding strings *)


Example String_decode_empty :
  decode FieldType.String [] = Ok (StringField [] []).
Proof. reflexivity. Qed.

(** ** Reading from a stream *)

Lemma fieldMap_lookup_tag (type : FieldType.t) :
  fieldMap_lookup (Some (tag_byte type)) = Some (fieldMap type).
Proof. destruct type; reflexivity. Qed.

Lemma fieldMap_lookup_unknown (b : byte) :
  ~ In b [x0f; x10; x11; x26; x14] -> fieldMap_lookup (Some b) = None.
Proof.
  intros Hb. destruct b; try reflexivity; exfalso; apply Hb; simpl; tauto.
Qed.

Lemma fieldMap_lookup_known (b : byte) (F : FieldClass) :
  fieldMap_lookup (Some b) = Some F ->
  exists type, b = tag_byte type /\ F = fieldMap type.
Proof.
  destruct b; try discriminate; intros [= <-];
    [ exists FieldType.UInt8 | exists FieldType.UInt16 | exists FieldType.UInt32
    | exists FieldType.Binary | exists FieldType.String ];
    split; reflexivity.
Qed.

(** [read] gives the buffer the stream gives, of whatever length. *)
Lemma read_Buffer {S : Type} `{PromiseReadable S} (stream stream' : S)
    (size : Z) (bs : Buffer) :
  stream_read stream size = (Ok (any_Buffer bs), stream') ->
  read size stream = (Ok bs, stream').
Proof. intros Hread. unfold read. rewrite Hread. reflexivity. Qed.

(** [read] throws when the stream gives anything but a buffer. *)
Lemma read_not_Buffer {S : Type} `{PromiseReadable S} (stream stream' : S)
    (size : Z) (a : any) :
  stream_read stream size = (Ok a, stream') ->
  (forall bs, a <> any_Buffer bs) ->
  read size stream = (Throw ExpectedBuffer, stream').
Proof.
  intros Hread Ha. unfold read. rewrite Hread.
  destruct a as [bs|s|]; try reflexivity. destruct (Ha bs eq_refl).
Qed.

(** The first step of [readField], given what the first read gives. *)
Ltac read_tag Hread :=
  unfold readField, bindM;
  rewrite (read_Buffer _ _ _ _ Hread);
  cbn [lookup list_lookup].

Section AnyStream.

Context {S : Type} `{PromiseReadable S}.

(** C6. When the first byte read from the stream is none of the five
    tags, [readField] fails, with the error of a property read from an
    undefined class, whether a type is expected or not; no field is
    returned and nothing is read after that byte. *)
Theorem readField_unknown_tag (stream stream' : S) (expect : option FieldType.t)
    (b : byte) (rest : Buffer) :
  stream_read stream 1 = (Ok (any_Buffer (b :: rest)), stream') ->
  ~ In b [x0f; x10; x11; x26; x14] ->
  readField expect stream = (Throw TypeError_undefined, stream').
Proof.
  intros Hread Hb. read_tag Hread.
  rewrite (fieldMap_lookup_unknown b Hb). reflexivity.
Qed.

(** With an expected type, a tag whose class has another static type,
    or none, makes [readField] throw before it reads anything more. *)
Lemma readField_expect_mismatch (stream stream' : S) (expect : FieldType.t)
    (b : byte) (rest : Buffer) (F : FieldClass) :
  stream_read stream 1 = (Ok (any_Buffer (b :: rest)), stream') ->
  fieldMap_lookup (Some b) = Some F ->
  static_type F <> Some expect ->
  readField (Some expect) stream
  = (Throw (ExpectedButGot (name (fieldMap expect)) (name F)), stream').
Proof.
  intros Hread HF Hne. read_tag Hread.
  rewrite HF, bool_decide_eq_true_2 by exact Hne. reflexivity.
Qed.

End AnyStream.

(** A stream that begins with the byte 0x15, read with the expectation
    of a [UInt8]. *)
Lemma readField_unknown_tag_witness :
  stream_read (Ended [x15; x00; x01]) 1 = (Ok (any_Buffer [x15]), Ended [x00; x01])
  /\ ~ In x15 [x0f; x10; x11; x26; x14]
  /\ readField (Some FieldType.UInt8) (Ended [x15; x00; x01])
     = (Throw TypeError_undefined, Ended [x00; x01]).
Proof.
  assert (Hread : stream_read (Ended [x15; x00; x01]) 1
                  = (Ok (any_Buffer [x15]), Ended [x00; x01])) by reflexivity.
  assert (Hb : ~ In x15 [x0f; x10; x11; x26; x14]).
  { simpl. intros [E|[E|[E|[E|[E|[]]]]]]; discriminate E. }
  split; [exact Hread|]. split; [exact Hb|].
  exact (readField_unknown_tag _ _ (Some FieldType.UInt8) _ _ Hread Hb).
Defined.

(** C3, at the input where the code departs from it. A stream holding a
    well-formed string field, read with the expectation of a string,
    makes [readField] throw "Expected String but got String": the static
    [type] of the class [String] is undefined. Without an expectation
    the same stream gives the field, and a binary field read with the
    expectation of a binary field is returned. *)
Theorem readField_expect_String :
  readField (Some FieldType.String) (Ended [x26; x00; x00; x00; x02; x00; x41])
  = (Throw (ExpectedButGot "String" "String"),
     Ended [x00; x00; x00; x02; x00; x41])
  /\ readField None (Ended [x26; x00; x00; x00; x02; x00; x41])
     = (Ok (StringField [x00; x41] [0x41]), Ended [])
  /\ readField (Some FieldType.Binary) (Ended [x14; x00; x00; x00; x02; x00; x41])
     = (Ok (BinaryField [x00; x41] [x00; x41]), Ended []).
Proof. repeat split. Qed.

(** ** The payload is decoded as it comes *)

(** Whatever buffer the stream gives for the payload of a number field,
    of the width asked for or not, is what the field is made from. *)
Lemma readField_number_chunk {S : Type} `{PromiseReadable S}
    (stream s1 s2 : S) (type : NumberFieldType) (rest chunk : Buffer) :
  stream_read stream 1
  = (Ok (any_Buffer (tag_byte (FieldType_of type) :: rest)), s1) ->
  stream_read s1 (Z.of_nat (bytes (numberBufferInfo type)))
  = (Ok (any_Buffer chunk), s2) ->
  readField None stream = (decode (FieldType_of type) chunk, s2).
Proof.
  intros Htag Hchunk. read_tag Htag. rewrite fieldMap_lookup_tag.
  replace (bytesToRead (fieldMap (FieldType_of type)))
    with (Some (bytes (numberBufferInfo type))) by (destruct type; reflexivity).
  unfold ret. cbn beta iota. rewrite (read_Buffer _ _ _ _ Hchunk). reflexivity.
Qed.

(** Whatever buffer the stream gives for the payload of a string or
    binary field, of the length read before it or not, is what the
    field is made from. *)
Lemma readField_variable_chunk {S : Type} `{PromiseReadable S}
    (stream s1 s2 s3 : S) (type : FieldType.t) (rest lengthData chunk : Buffer)
    (count : Z) :
  fixed_size type = None ->
  stream_read stream 1 = (Ok (any_Buffer (tag_byte type :: rest)), s1) ->
  stream_read s1 4 = (Ok (any_Buffer lengthData), s2) ->
  Buf.readUInt32BE lengthData 0 = Ok count ->
  stream_read s2 count = (Ok (any_Buffer chunk), s3) ->
  readField None stream = (decode type chunk, s3).
Proof.
  intros Hvar Htag Hlength Hcount Hchunk. read_tag Htag.
  rewrite fieldMap_lookup_tag. unfold fixed_size in Hvar. rewrite Hvar.
  unfold ret, bindM, lift. cbn beta iota.
  rewrite (read_Buffer _ _ _ _ Hlength), Hcount.
  rewrite (read_Buffer _ _ _ _ Hchunk). reflexivity.
Qed.

(** A read that gives no buffer where the payload is due makes
    [readField] throw. *)
Lemma readField_variable_no_chunk {S : Type} `{PromiseReadable S}
    (stream s1 s2 s3 : S) (type : FieldType.t) (rest lengthData : Buffer)
    (count : Z) (a : any) :
  fixed_size type = None ->
  stream_read stream 1 = (Ok (any_Buffer (tag_byte type :: rest)), s1) ->
  stream_read s1 4 = (Ok (any_Buffer lengthData), s2) ->
  Buf.readUInt32BE lengthData 0 = Ok count ->
  stream_read s2 count = (Ok a, s3) ->
  (forall bs, a <> any_Buffer bs) ->
  readField None stream = (Throw ExpectedBuffer, s3).
Proof.
  intros Hvar Htag Hlength Hcount Hchunk Ha. read_tag Htag.
  rewrite fieldMap_lookup_tag. unfold fixed_size in Hvar. rewrite Hvar.
  unfold ret, bindM, lift. cbn beta iota.
  rewrite (read_Buffer _ _ _ _ Hlength), Hcount.
  rewrite (read_not_Buffer _ _ _ _ Hchunk Ha). reflexivity.
Qed.

(** ** Reading from a stream that has ended *)

Lemma read_Ended_nil (size : Z) :
  size <= MAX_HWM ->
  read size (Ended []) = (Throw ExpectedBuffer, Ended []).
Proof.
  intros Hsize. unfold read, stream_read, EndedStream_read.
  replace (MAX_HWM <? size) with false by lia. reflexivity.
Qed.

Lemma read_Ended_cons (size : Z) (b : byte) (rest : list byte) :
  0 < size <= MAX_HWM ->
  read size (Ended (b :: rest))
  = (Ok (take (Z.to_nat size) (b :: rest)),
     Ended (drop (Z.to_nat size) (b :: rest))).
Proof.
  intros Hsize. unfold read, stream_read, EndedStream_read. cbn [remaining].
  replace (MAX_HWM <? size) with false by lia.
  replace (size <=? 0) with false by lia. reflexivity.
Qed.

(** A size above 1 GiB is refused, whatever the stream holds. *)
Lemma read_Ended_large (size : Z) (stream : EndedStream) :
  MAX_HWM < size ->
  read size stream = (Throw ERR_OUT_OF_RANGE_size, stream).
Proof.
  intros Hsize. unfold read, stream_read, EndedStream_read.
  replace (MAX_HWM <? size) with true by lia. reflexivity.
Qed.


(** A number field on a stream that has ended: the payload is whatever
    is left, up to the width of the type. *)
Lemma readField_Ended_number (type : NumberFieldType) (rest : list byte) :
  readField None (Ended (tag_byte (FieldType_of type) :: rest))
  = match rest with
    | [] => (Throw ExpectedBuffer, Ended [])
    | _ :: _ =>
        (new_Number type (of_Buffer (take (bytes (numberBufferInfo type)) rest)),
         Ended (drop (bytes (numberBufferInfo type)) rest))
    end.
Proof.
  unfold readField, bindM.
  rewrite read_Ended_cons by (unfold MAX_HWM; lia). change (Z.to_nat 1) with 1%nat.
  cbn [firstn skipn lookup list_lookup]. rewrite drop_0, fieldMap_lookup_tag.
  replace (bytesToRead (fieldMap (FieldType_of type)))
    with (Some (bytes (numberBufferInfo type))) by (destruct type; reflexivity).
  unfold ret. cbn beta iota. destruct rest as [|b rest].
  - rewrite read_Ended_nil by (destruct type; unfold MAX_HWM; simpl; lia).
    reflexivity.
  - rewrite read_Ended_cons by (destruct type; unfold MAX_HWM; simpl; lia).
    rewrite Nat2Z.id. unfold lift. destruct type; reflexivity.
Qed.

(** A variable field on a stream that has ended: the length is read
    from whatever is left, up to 4 bytes; a length above 1 GiB is
    refused by the stream; the payload is whatever is left after the
    length, up to that length. *)
Lemma readField_Ended_variable (type : FieldType.t) (rest : list byte) :
  fixed_size type = None ->
  readField None (Ended (tag_byte type :: rest))
  = match rest with
    | [] => (Throw ExpectedBuffer, Ended [])
    | _ :: _ =>
        match Buf.readUInt32BE (take 4 rest) 0 with
        | Ok count =>
            if MAX_HWM <? count
            then (Throw ERR_OUT_OF_RANGE_size, Ended (drop 4 rest))
            else
              match drop 4 rest with
              | [] => (Throw ExpectedBuffer, Ended [])
              | _ :: _ =>
                  if count <=? 0 then (Pending, Ended (drop 4 rest))
                  else (decode type (take (Z.to_nat count) (drop 4 rest)),
                        Ended (drop (Z.to_nat count) (drop 4 rest)))
              end
        | Throw e => (Throw e, Ended (drop 4 rest))
        | Pending => (Pending, Ended (drop 4 rest))
        end
    end.
Proof.
  intros Hvar. unfold readField, bindM.
  rewrite read_Ended_cons by (unfold MAX_HWM; lia). change (Z.to_nat 1) with 1%nat.
  cbn [firstn skipn lookup list_lookup]. rewrite drop_0, fieldMap_lookup_tag.
  unfold fixed_size in Hvar. rewrite Hvar. unfold ret. cbn beta iota.
  destruct rest as [|b rest]; [reflexivity|].
  unfold bindM. cbn beta iota. rewrite read_Ended_cons by (unfold MAX_HWM; lia).
  change (Z.to_nat 4) with 4%nat. unfold lift.
  destruct (Buf.readUInt32BE (take 4 (b :: rest)) 0) as [count|e|]; try reflexivity.
  unfold read, stream_read, EndedStream_read. cbn [remaining].
  destruct (MAX_HWM <? count); [reflexivity|].
  destruct (drop 4 (b :: rest)) as [|c rest'] eqn:Hdrop; [reflexivity|].
  destruct (count <=? 0); reflexivity.
Qed.

Lemma readUInt32BE_be_bytes (count : Z) :
  0 <= count < 2 ^ 32 -> Buf.readUInt32BE (be_bytes 4 count) 0 = Ok count.
Proof.
  intros Hcount.
  change (Buf.readUInt32BE (be_bytes 4 count) 0)
    with (readFn (numberBufferInfo NUInt32) (be_bytes 4 count)).
  rewrite readFn_take, length_be_bytes. cbn [numberBufferInfo bytes Nat.ltb Nat.leb].
  rewrite take_ge by (rewrite length_be_bytes; lia).
  rewrite uint_be_small; [reflexivity | simpl; lia].
Qed.

Lemma be_bytes_4 (z : Z) :
  exists h0 h1 h2 h3, be_bytes 4 z = [h0; h1; h2; h3].
Proof. cbn [be_bytes app]. eauto. Qed.






(** One byte short of a well-formed field: a binary field declared with
    2 bytes or more, and no more than 1 GiB, is returned without its
    last byte, and every other field fails. *)
Lemma truncated_one_byte_short (type : FieldType.t) (p : Buffer) :
  well_formed type p ->
  truncated type p (length (wire type p) - 1)
  = match type with
    | FieldType.UInt8 => Throw ExpectedBuffer
    | FieldType.UInt16 | FieldType.UInt32 => Throw ERR_OUT_OF_RANGE_offset
    | FieldType.String =>
        if (length p =? 0)%nat then Throw ERR_OUT_OF_RANGE_offset
        else if MAX_HWM <? Z.of_nat (length p) then Throw ERR_OUT_OF_RANGE_size
        else Throw ERR_INVALID_BUFFER_SIZE
    | FieldType.Binary =>
        if (length p =? 0)%nat then Throw ERR_OUT_OF_RANGE_offset
        else if MAX_HWM <? Z.of_nat (length p) then Throw ERR_OUT_OF_RANGE_size
        else if (length p =? 1)%nat then Throw ExpectedBuffer
        else Ok (BinaryField (take (length p - 1) p) (take (length p - 1) p))
    end.
Proof.
  intros Hwf. rewrite length_wire. unfold truncated.
  destruct type; unfold well_formed in Hwf;
    cbn [fixed_size fieldMap bytesToRead UInt8 UInt16 UInt32 numberBufferInfo bytes] in *;
    try (rewrite Hwf; reflexivity).
  - destruct Hwf as [_ Heven]. destruct (Heven eq_refl) as [Heven' _].
    clear Heven. rename Heven' into Heven.
    destruct p as [|a [|b p]]; [reflexivity | discriminate |].
    remember (MAX_HWM <? Z.of_nat (length (a :: b :: p))) as large.
    cbn [length Nat.add Nat.sub Nat.leb Nat.ltb Nat.eqb].
    destruct large; [reflexivity|].
    unfold decode. cbn [fieldMap new]. rewrite new_String_of_bytes.
    rewrite length_take. cbn [length].
    replace (S (length p) `min` S (S (length p)))%nat with (S (length p)) by lia.
    cbn [length] in Heven. rewrite Nat.even_succ_succ in Heven.
    rewrite Nat.even_succ, <- Nat.negb_even, Heven. reflexivity.
  - destruct p as [|a [|b p]]; [reflexivity | reflexivity |].
    remember (MAX_HWM <? Z.of_nat (length (a :: b :: p))) as large.
    cbn [length Nat.add Nat.sub Nat.leb Nat.ltb Nat.eqb].
    destruct large; reflexivity.
Qed.

(** ** The expected type *)

(** With an expectation that the static type of the class meets, the
    check passes and [readField] goes on as without an expectation. *)
Lemma readField_expect_match {S : Type} `{PromiseReadable S}
    (stream stream' : S) (expect : FieldType.t) (b : byte) (rest : Buffer)
    (F : FieldClass) :
  stream_read stream 1 = (Ok (any_Buffer (b :: rest)), stream') ->
  fieldMap_lookup (Some b) = Some F ->
  static_type F = Some expect ->
  readField (Some expect) stream = readField None stream.
Proof.
  intros Hread HF Heq. read_tag Hread.
  rewrite HF, bool_decide_eq_false_2 by (intros Hne; apply Hne, Heq).
  reflexivity.
Qed.

(** The tag of a string with any expectation at all: the check fails,
    the expectation of a string included. *)
Lemma readField_expect_on_String {S : Type} `{PromiseReadable S}
    (stream stream' : S) (expect : FieldType.t) (rest : Buffer) :
  stream_read stream 1 = (Ok (any_Buffer (x26 :: rest)), stream') ->
  readField (Some expect) stream
  = (Throw (ExpectedButGot (name (fieldMap expect)) "String"), stream').
Proof.
  intros Hread.
  apply (readField_expect_mismatch stream stream' expect x26 rest StringClass Hread);
    [reflexivity | discriminate].
Qed.

(** ** The de-duplication of the CLI *)

Module CliFacts.
Import Cli.

Lemma on_status_recorded (lastTid : gmap Z Z) (state : State) :
  (on_status lastTid state).1 !! deviceId state = Some (trackId state).
Proof.
  unfold on_status. case_bool_decide as E; cbn [fst]; [exact E|].
  apply lookup_insert_eq.
Qed.

Lemma on_status_other (lastTid : gmap Z Z) (state : State) (device : Z) :
  device <> deviceId state ->
  (on_status lastTid state).1 !! device = lastTid !! device.
Proof.
  intros Hne. unfold on_status. case_bool_decide; cbn [fst]; [reflexivity|].
  apply lookup_insert_ne. congruence.
Qed.

Lemma run_app (lastTid : gmap Z Z) (before after : list State) :
  run lastTid (before ++ after)
  = ((run (run lastTid before).1 after).1,
     (run lastTid before).2 ++ (run (run lastTid before).1 after).2).
Proof.
  revert lastTid. induction before as [|state before IH]; intros lastTid.
  - cbn [app run fst snd]. destruct (run lastTid after); reflexivity.
  - cbn [app run]. destruct (on_status lastTid state) as [lastTid' emitted].
    rewrite IH. destruct (run lastTid' before) as [lastTid'' later].
    cbn [fst snd]. rewrite app_assoc. reflexivity.
Qed.

(** What the map records for a device after a run: the track id of
    its latest status in the run, or what it recorded before. *)
Lemma run_recorded (lastTid : gmap Z Z) (states : list State) (device : Z) :
  (run lastTid states).1 !! device
  = match last_trackId device states with
    | Some track => Some track
    | None => lastTid !! device
    end.
Proof.
  revert lastTid. induction states as [|state states IH]; intros lastTid.
  - reflexivity.
  - cbn [run last_trackId].
    pose proof (on_status_recorded lastTid state) as Hrec.
    pose proof (on_status_other lastTid state device) as Hother.
    destruct (on_status lastTid state) as [lastTid' emitted].
    specialize (IH lastTid'). destruct (run lastTid' states) as [lastTid'' later].
    cbn [fst] in *. rewrite IH.
    destruct (last_trackId device states); [reflexivity|].
    case_bool_decide as E; [subst device; exact Hrec | apply Hother; congruence].
Qed.

(** Statuses of one device with one track id, on a map that records
    that track for the device: nothing is emitted. *)
Lemma run_repeats (lastTid : gmap Z Z) (states : list State) (device track : Z) :
  Forall (fun state => deviceId state = device /\ trackId state = track) states ->
  lastTid !! device = Some track ->
  run lastTid states = (lastTid, []).
Proof.
  intros Hall Hrec. induction Hall as [|state states [Hd Ht] _ IH]; [reflexivity|].
  cbn [run]. unfold on_status.
  rewrite bool_decide_eq_true_2 by (rewrite Hd, Ht; exact Hrec).
  rewrite IH. reflexivity.
Qed.

End CliFacts.

(** C7. De-duplication. In every sequence of statuses, the handler emits
    for a status exactly when the track id of the status differs from
    the track id recorded for its device, which is the track id of the
    latest earlier status of that device, if there is one. Statuses of
    one device that repeat one track id, one or more in a row, on a map
    that records another track or none for the device, emit exactly
    once in total, at the first of them. *)
Theorem track_loaded_deduplicated :
  (forall (before : list Cli.State) (state : Cli.State),
     (Cli.run Cli.lastTid0 (before ++ [state])).2
     = (Cli.run Cli.lastTid0 before).2
       ++ (if bool_decide (Cli.last_trackId (Cli.deviceId state) before
                           = Some (Cli.trackId state))
           then []
           else [Cli.trackLoaded (Cli.deviceId state) (Cli.trackId state)]))
  /\ (forall (lastTid : gmap Z Z) (device track : Z)
             (first : Cli.State) (repeats : list Cli.State),
        Forall (fun state => Cli.deviceId state = device
                             /\ Cli.trackId state = track) (first :: repeats) ->
        lastTid !! device <> Some track ->
        (Cli.on_status lastTid first).2 = [Cli.trackLoaded device track]
        /\ (Cli.run (Cli.on_status lastTid first).1 repeats).2 = []
        /\ (Cli.run lastTid (first :: repeats)).2 = [Cli.trackLoaded device track]).
Proof.
  split.
  - intros before state. rewrite CliFacts.run_app. cbn [snd]. f_equal.
    cbn [Cli.run]. unfold Cli.on_status.
    rewrite (CliFacts.run_recorded Cli.lastTid0 before (Cli.deviceId state)).
    unfold Cli.lastTid0. rewrite lookup_empty.
    destruct (Cli.last_trackId (Cli.deviceId state) before) as [track|].
    + repeat case_bool_decide; try congruence; reflexivity.
    + rewrite !bool_decide_eq_false_2 by discriminate. reflexivity.
  - intros lastTid device track first repeats Hall Hne.
    inversion Hall as [|? ? [Hd Ht] Hrest]; subst.
    assert (Hfirst : Cli.on_status lastTid first
                     = (<[Cli.deviceId first := Cli.trackId first]> lastTid,
                        [Cli.trackLoaded (Cli.deviceId first) (Cli.trackId first)])).
    { unfold Cli.on_status. rewrite bool_decide_eq_false_2 by exact Hne. reflexivity. }
    assert (Hrepeats : Cli.run (<[Cli.deviceId first := Cli.trackId first]> lastTid)
                         repeats
                       = (<[Cli.deviceId first := Cli.trackId first]> lastTid, [])).
    { apply (CliFacts.run_repeats _ _ _ _ Hrest), lookup_insert_eq. }
    cbn [Cli.run]. rewrite Hfirst. cbn [fst snd]. rewrite Hrepeats. auto.
Qed.

(** Three statuses of device 1 with track 100, on a map that records
    track 99 for it: one emission. *)
Lemma track_loaded_deduplicated_witness :
  Forall (fun state => Cli.deviceId state = 1 /\ Cli.trackId state = 100)
    [Cli.Build_State 1 100 1 3 1; Cli.Build_State 1 100 1 3 1;
     Cli.Build_State 1 100 1 3 1]
  /\ (<[1 := 99]> Cli.lastTid0 : gmap Z Z) !! 1 <> Some 100
  /\ (Cli.run (<[1 := 99]> Cli.lastTid0)
        [Cli.Build_State 1 100 1 3 1; Cli.Build_State 1 100 1 3 1;
         Cli.Build_State 1 100 1 3 1]).2
     = [Cli.trackLoaded 1 100].
Proof.
  set (status := Cli.Build_State 1 100 1 3 1).
  assert (Hall : Forall (fun state => Cli.deviceId state = 1 /\ Cli.trackId state = 100)
                   [status; status; status]) by (repeat constructor).
  assert (Hne : (<[1 := 99]> Cli.lastTid0 : gmap Z Z) !! 1 <> Some 100).
  { rewrite lookup_insert_eq. discriminate. }
  split; [exact Hall|]. split; [exact Hne|].
  exact (proj2 (proj2 (proj2 track_loaded_deduplicated _ 1 100 status
                         [status; status] Hall Hne))).
Defined.

(** * Further properties *)

(** ** Reading back what was encoded *)

Lemma well_formed_nonempty_fixed (type : FieldType.t) (p : Buffer) (count : nat) :
  fixed_size type = Some count -> length p = count -> p <> [].
Proof.
  intros Hfixed Hlen ->. destruct type; try discriminate;
    injection Hfixed as <-; discriminate Hlen.
Qed.

(** The wire bytes of a field whose payload is not above 1 GiB, followed
    by anything, on a stream that has ended: [readField] decodes the
    payload and leaves what follows. *)
Lemma readField_wire (type : FieldType.t) (p rest : list byte) :
  well_formed type p ->
  (fixed_size type = None -> p <> []) ->
  Z.of_nat (length p) <= MAX_HWM ->
  readField None (Ended (wire type p ++ rest)) = (decode type p, Ended rest).
Proof.
  unfold well_formed, wire. intros Hwf Hne Hsmall.
  destruct (fixed_size type) as [count|] eqn:Hfixed.
  - pose proof (well_formed_nonempty_fixed type p count Hfixed Hwf) as Hp.
    assert (exists t, type = FieldType_of t /\ count = bytes (numberBufferInfo t))
      as (t & -> & ->).
    { destruct type; try discriminate; injection Hfixed as <-;
        [exists NUInt8 | exists NUInt16 | exists NUInt32]; split; reflexivity. }
    cbn [app]. rewrite readField_Ended_number.
    destruct p as [|b p]; [congruence|]. cbn [app].
    change (b :: p ++ rest) with ((b :: p) ++ rest).
    rewrite <- Hwf, take_app_length, drop_app_length, decode_number. reflexivity.
  - destruct Hwf as [Hlen _]. specialize (Hne eq_refl).
    pose proof (readUInt32BE_be_bytes (Z.of_nat (length p)) ltac:(lia)) as Hread.
    destruct (be_bytes_4 (Z.of_nat (length p))) as (h0 & h1 & h2 & h3 & Hh).
    rewrite Hh in *. cbn [app]. rewrite (readField_Ended_variable _ _ Hfixed).
    cbn [firstn skipn]. rewrite take_0, Hread, ?drop_0.
    replace (MAX_HWM <? Z.of_nat (length p)) with false by lia.
    destruct p as [|b p]; [congruence|]. cbn [app].
    destruct (Z.leb_spec (Z.of_nat (length (b :: p))) 0) as [Hle|_];
      [cbn [length] in Hle; lia|].
    rewrite Nat2Z.id. change (b :: p ++ rest) with ((b :: p) ++ rest).
    rewrite take_app_length, drop_app_length. reflexivity.
Qed.

Lemma well_formed_payload_of (v : FieldValue) :
  valid_value v -> well_formed (type_of_value v) (payload_of v).
Proof.
  destruct v as [type z|s|b]; cbn [valid_value type_of_value payload_of]; intros Hv.
  - unfold well_formed.
    replace (fixed_size (FieldType_of type))
      with (Some (bytes (numberBufferInfo type))) by (destruct type; reflexivity).
    apply length_be_bytes.
  - destruct Hv as [_ Hlen]. pose proof (length_utf16be s) as Hbytes.
    unfold well_formed. cbn [fixed_size fieldMap bytesToRead].
    split; [unfold MAX_STRING_LENGTH in Hlen; lia|].
    intros _. split; [apply even_length_utf16be | lia].
  - split; [exact Hv | discriminate].
Qed.

(** What a successful decoding keeps: the type and the payload. *)
Lemma decode_data (type : FieldType.t) (p : Buffer) (f : Field) :
  decode type p = Ok f -> type_of f = type /\ data f = p.
Proof.
  unfold decode. destruct type; cbn [fieldMap new UInt8 UInt16 UInt32];
    rewrite ?new_Number_of_Buffer, ?new_String_of_bytes; unfold new_Binary;
    repeat match goal with
           | |- context [if ?c then _ else _] => destruct c
           end;
    intros [= <-]; split; reflexivity.
Qed.
(** X1. A valid value with a payload that is not empty and not above
    1 GiB makes the field of that value; that field, encoded, and read
    from a stream that holds the encoding followed by any other bytes,
    is what [readField] returns, and exactly the bytes that follow are
    left. *)
Theorem readField_reads_back (v : FieldValue) (rest : list byte) :
  valid_value v ->
  payload_of v <> [] ->
  Z.of_nat (length (payload_of v)) <= MAX_HWM ->
  make v = Ok (field_of v)
  /\ exists bs, buffer (field_of v) = Ok bs
       /\ readField None (Ended (bs ++ rest)) = (Ok (field_of v), Ended rest).
Proof.
  intros Hv Hne Hsmall. pose proof (make_field_of v Hv) as Hfield.
  destruct (decode_make v Hv) as (f & Hmake & Hbuf & Hdec).
  destruct (make_valid v Hv) as (f' & Hmake' & Htype & Hdata & _).
  assert (f' = field_of v) as -> by congruence.
  assert (f = field_of v) as -> by congruence.
  split; [exact Hfield|].
  exists (wire (type_of (field_of v)) (data (field_of v))). split; [exact Hbuf|].
  rewrite readField_wire, Hdec; [reflexivity | | |].
  - rewrite Htype, Hdata. apply well_formed_payload_of, Hv.
  - intros _. rewrite Hdata. exact Hne.
  - rewrite Hdata. exact Hsmall.
Qed.

(** The string "é" followed by two bytes of something else. *)
Lemma readField_reads_back_witness :
  valid_value (string_value [0xE9])
  /\ payload_of (string_value [0xE9]) <> []
  /\ Z.of_nat (length (payload_of (string_value [0xE9]))) <= MAX_HWM
  /\ make (string_value [0xE9]) = Ok (StringField [x00; xe9] [0xE9])
  /\ exists bs, buffer (StringField [x00; xe9] [0xE9]) = Ok bs
       /\ readField None (Ended (bs ++ [x0f; x07]))
          = (Ok (StringField [x00; xe9] [0xE9]), Ended [x0f; x07]).
Proof.
  assert (Hv : valid_value (string_value [0xE9])).
  { split; [repeat constructor; unfold is_code_unit; lia
           | vm_compute; discriminate]. }
  assert (Hne : payload_of (string_value [0xE9]) <> []) by discriminate.
  assert (Hsmall : Z.of_nat (length (payload_of (string_value [0xE9]))) <= MAX_HWM)
    by (vm_compute; discriminate).
  split; [exact Hv|]. split; [exact Hne|]. split; [exact Hsmall|].
  exact (readField_reads_back (string_value [0xE9]) [x0f; x07] Hv Hne Hsmall).
Defined.

(** X2. Two fields in a row. On a stream that holds the wire bytes of
    one well-formed field, then those of another, then anything, the
    payloads not empty and not above 1 GiB, two calls of [readField]
    return the two fields in order and leave what follows the second. *)
Theorem readField_twice_in_order (t1 t2 : FieldType.t) (p1 p2 rest : list byte) :
  well_formed t1 p1 -> p1 <> [] -> Z.of_nat (length p1) <= MAX_HWM ->
  well_formed t2 p2 -> p2 <> [] -> Z.of_nat (length p2) <= MAX_HWM ->
  exists f1 f2, decode t1 p1 = Ok f1 /\ decode t2 p2 = Ok f2
    /\ readField_twice (Ended (wire t1 p1 ++ wire t2 p2 ++ rest))
       = (Ok (f1, f2), Ended rest).
Proof.
  intros Hwf1 Hne1 Hsmall1 Hwf2 Hne2 Hsmall2.
  destruct (decode_well_formed t1 p1 Hwf1) as (f1 & Hdec1 & _).
  destruct (decode_well_formed t2 p2 Hwf2) as (f2 & Hdec2 & _).
  exists f1, f2. split; [exact Hdec1|]. split; [exact Hdec2|].
  unfold readField_twice, bindM.
  rewrite readField_wire, Hdec1 by auto.
  rewrite readField_wire, Hdec2 by auto. reflexivity.
Qed.

(** A [UInt16] and then a binary field of one byte. *)
Lemma readField_twice_in_order_witness :
  well_formed FieldType.UInt16 [x12; x34] /\ [x12; x34] <> []
  /\ Z.of_nat (length [x12; x34]) <= MAX_HWM
  /\ well_formed FieldType.Binary [xaa] /\ [xaa] <> []
  /\ Z.of_nat (length [xaa]) <= MAX_HWM
  /\ exists f1 f2, decode FieldType.UInt16 [x12; x34] = Ok f1
       /\ decode FieldType.Binary [xaa] = Ok f2
       /\ readField_twice
            (Ended (wire FieldType.UInt16 [x12; x34]
                    ++ wire FieldType.Binary [xaa] ++ [x26]))
          = (Ok (f1, f2), Ended [x26]).
Proof.
  assert (H1 : well_formed FieldType.UInt16 [x12; x34]) by reflexivity.
  assert (H2 : [x12; x34] <> ([] : list byte)) by discriminate.
  assert (H3 : Z.of_nat (length [x12; x34]) <= MAX_HWM) by (vm_compute; discriminate).
  assert (H4 : well_formed FieldType.Binary [xaa])
    by (split; [reflexivity | discriminate]).
  assert (H5 : [xaa] <> ([] : list byte)) by discriminate.
  assert (H6 : Z.of_nat (length [xaa]) <= MAX_HWM) by (vm_compute; discriminate).
  repeat (split; [assumption|]).
  exact (readField_twice_in_order _ _ _ _ [x26] H1 H2 H3 H4 H5 H6).
Defined.

(** ** What a successful read has consumed *)

Lemma readUInt32BE_Ok (lengthData : Buffer) (count : Z) :
  Buf.readUInt32BE lengthData 0 = Ok count ->
  (4 <= length lengthData)%nat /\ count = uint_be (take 4 lengthData).
Proof.
  change (Buf.readUInt32BE lengthData 0)
    with (readFn (numberBufferInfo NUInt32) lengthData).
  rewrite readFn_take. cbn [numberBufferInfo bytes].
  destruct (Nat.ltb_spec (length lengthData) 4); [discriminate|].
  intros [= <-]. split; [assumption | reflexivity].
Qed.

Lemma buffer_variable (f : Field) :
  fixed_size (type_of f) = None ->
  buffer f = makeVariableBuffer (type_of f) (data f).
Proof.
  destruct f as [type bs value|bs value|bs value]; try reflexivity.
  destruct type; discriminate.
Qed.

Lemma readField_consumed_number (type : NumberFieldType) (bs rest : list byte)
    (f : Field) :
  readField None (Ended (tag_byte (FieldType_of type) :: bs)) = (Ok f, Ended rest) ->
  rest <> [] ->
  tag_byte (FieldType_of type) :: bs
  = (tag_byte (FieldType_of type) :: data f) ++ rest
  /\ buffer f = Ok (tag_byte (FieldType_of type) :: data f).
Proof.
  rewrite readField_Ended_number. destruct bs as [|b bs]; [discriminate|].
  rewrite new_Number_of_Buffer.
  destruct (_ <? _)%nat; [discriminate|]. intros [= <- <-] Hrest.
  cbn [data app]. rewrite take_drop, buffer_NumberField. auto.
Qed.

Lemma readField_consumed_variable (type : FieldType.t) (bs rest : list byte)
    (f : Field) :
  fixed_size type = None ->
  readField None (Ended (tag_byte type :: bs)) = (Ok f, Ended rest) ->
  rest <> [] ->
  exists consumed, tag_byte type :: bs = consumed ++ rest /\ buffer f = Ok consumed.
Proof.
  intros Hvar. rewrite (readField_Ended_variable _ _ Hvar).
  destruct bs as [|b bs]; [discriminate|].
  destruct (Buf.readUInt32BE (take 4 (b :: bs)) 0) as [count|e|] eqn:Hread;
    [|discriminate|discriminate].
  destruct (MAX_HWM <? count); [discriminate|].
  apply readUInt32BE_Ok in Hread as [Hfour Hcount].
  rewrite length_take in Hfour.
  rewrite take_take in Hcount. change (4 `min` 4)%nat with 4%nat in Hcount.
  destruct (drop 4 (b :: bs)) as [|c after] eqn:Hdrop; [discriminate|].
  destruct (Z.leb_spec count 0) as [|Hpos]; [discriminate|].
  intros [= Hdec <-] Hrest.
  apply decode_data in Hdec as Hf. destruct Hf as [Htype Hdata].
  assert (Hfull : (Z.to_nat count < length (c :: after))%nat).
  { destruct (Nat.lt_ge_cases (Z.to_nat count) (length (c :: after))) as [|Hge];
      [assumption|].
    rewrite drop_ge in Hrest by exact Hge. congruence. }
  assert (Hlen : length (data f) = Z.to_nat count).
  { rewrite Hdata, length_take. lia. }
  pose proof (uint_be_range (take 4 (b :: bs))) as Hrange.
  rewrite length_take in Hrange.
  replace (4 `min` length (b :: bs))%nat with 4%nat in Hrange by lia.
  change (256 ^ Z.of_nat 4) with (2 ^ 32) in Hrange. rewrite <- Hcount in Hrange.
  exists (tag_byte type :: take 4 (b :: bs) ++ data f). split.
  - cbn [app]. f_equal. rewrite <- app_assoc, Hdata, take_drop.
    rewrite <- Hdrop, take_drop. reflexivity.
  - rewrite buffer_variable by (rewrite Htype; exact Hvar).
    rewrite Htype, makeVariableBuffer_layout by (rewrite Hlen; lia).
    rewrite Hlen, Z2Nat.id, Hcount by lia.
    replace 4%nat with (length (take 4 (b :: bs))) at 1
      by (rewrite length_take; lia).
    rewrite be_bytes_uint_be. reflexivity.
Qed.

(** X3. When [readField] returns a field from a stream that has ended
    and bytes are left in the stream after it, the bytes it consumed
    are the encoding of the field it returned. *)
Theorem readField_consumed (bs rest : list byte) (f : Field) :
  readField None (Ended bs) = (Ok f, Ended rest) ->
  rest <> [] ->
  exists consumed, bs = consumed ++ rest /\ buffer f = Ok consumed.
Proof.
  intros Hread Hrest. destruct bs as [|b bs]; [discriminate|].
  destruct (fieldMap_lookup (Some b)) as [F|] eqn:HF.
  - apply fieldMap_lookup_known in HF as (type & -> & ->).
    destruct (fixed_size type) as [count|] eqn:Hfixed.
    + assert (exists t, type = FieldType_of t) as (t & ->).
      { destruct type; try discriminate;
          [exists NUInt8 | exists NUInt16 | exists NUInt32]; reflexivity. }
      destruct (readField_consumed_number t bs rest f Hread Hrest) as [Hbs Hbuf].
      eauto.
    + exact (readField_consumed_variable type bs rest f Hfixed Hread Hrest).
  - exfalso. revert Hread. unfold readField, bindM.
    rewrite read_Ended_cons by (unfold MAX_HWM; lia). change (Z.to_nat 1) with 1%nat.
    cbn [firstn skipn lookup list_lookup]. rewrite HF. discriminate.
Qed.

(** A string of one unit followed by one more byte. *)
Lemma readField_consumed_witness :
  readField None (Ended [x26; x00; x00; x00; x02; x00; x41; xff])
  = (Ok (StringField [x00; x41] [0x41]), Ended [xff])
  /\ [xff] <> ([] : list byte)
  /\ exists consumed,
       [x26; x00; x00; x00; x02; x00; x41; xff] = consumed ++ [xff]
       /\ buffer (StringField [x00; x41] [0x41]) = Ok consumed.
Proof.
  assert (Hread : readField None (Ended [x26; x00; x00; x00; x02; x00; x41; xff])
                  = (Ok (StringField [x00; x41] [0x41]), Ended [xff]))
    by reflexivity.
  assert (Hrest : [xff] <> ([] : list byte)) by discriminate.
  split; [exact Hread|]. split; [exact Hrest|].
  exact (readField_consumed _ _ _ Hread Hrest).
Defined.
(** ** The expected type, for every tag *)

Lemma static_type_fieldMap (type expect : FieldType.t) :
  static_type (fieldMap type) = Some expect
  <-> type = expect /\ type <> FieldType.String.
Proof.
  destruct type, expect; cbn;
    (split; [intros Heq | intros [Heq Hne]]);
    try discriminate; try congruence;
    try (split; [reflexivity | discriminate]).
Qed.

(** X4. With an expected type and a known tag, on any stream:
    [readField] goes on as without an expectation when the tag is the
    expected one and is not the tag of a string, and otherwise throws,
    naming the two classes, after the one read of the tag. The tag of a
    string fails every expectation. *)
Theorem readField_expectation {S : Type} `{PromiseReadable S}
    (stream stream' : S) (expect type : FieldType.t) (rest : Buffer) :
  stream_read stream 1 = (Ok (any_Buffer (tag_byte type :: rest)), stream') ->
  readField (Some expect) stream
  = if bool_decide (type = expect /\ type <> FieldType.String)
    then readField None stream
    else (Throw (ExpectedButGot (name (fieldMap expect)) (name (fieldMap type))),
          stream').
Proof.
  intros Hread. pose proof (static_type_fieldMap type expect) as Hstatic.
  case_bool_decide as E.
  - apply (readField_expect_match stream stream' expect _ rest (fieldMap type) Hread).
    + apply fieldMap_lookup_tag.
    + apply Hstatic, E.
  - apply (readField_expect_mismatch stream stream' expect _ rest (fieldMap type) Hread).
    + apply fieldMap_lookup_tag.
    + intros Heq. apply E, Hstatic, Heq.
Qed.

(** A binary field read with the expectation of a [UInt32]. *)
Lemma readField_expectation_witness :
  stream_read (Ended [x14; x00; x00; x00; x01; xaa]) 1
  = (Ok (any_Buffer (tag_byte FieldType.Binary :: [])),
     Ended [x00; x00; x00; x01; xaa])
  /\ readField (Some FieldType.UInt32) (Ended [x14; x00; x00; x00; x01; xaa])
     = (Throw (ExpectedButGot "Number" "Binary"), Ended [x00; x00; x00; x01; xaa]).
Proof.
  assert (Hread : stream_read (Ended [x14; x00; x00; x00; x01; xaa]) 1
                  = (Ok (any_Buffer (tag_byte FieldType.Binary :: [])),
                     Ended [x00; x00; x00; x01; xaa])) by reflexivity.
  split; [exact Hread|].
  exact (readField_expectation _ _ FieldType.UInt32 FieldType.Binary [] Hread).
Defined.

(** ** Decoded numbers *)

(** X5. Whatever payload a number field is decoded from, the value of
    the field is an integer from 0 to the largest value of its width. *)
Theorem decoded_number_in_range (type : NumberFieldType) (p : Buffer) (f : Field) :
  decode (FieldType_of type) p = Ok f ->
  exists z, f = NumberField type p (int z) /\ 0 <= z <= max_value type.
Proof.
  rewrite decode_number, new_Number_of_Buffer.
  destruct (Nat.ltb_spec (length p) (bytes (numberBufferInfo type))) as [|Hlen];
    [discriminate|].
  intros [= <-]. eexists. split; [reflexivity|].
  pose proof (uint_be_range (take (bytes (numberBufferInfo type)) p)) as Hrange.
  rewrite length_take, Nat.min_l in Hrange by exact Hlen.
  rewrite max_value_pow. lia.
Qed.

(** A [UInt16] decoded from three bytes. *)
Lemma decoded_number_in_range_witness :
  decode FieldType.UInt16 [xff; xfe; x01]
  = Ok (NumberField NUInt16 [xff; xfe; x01] (int 65534))
  /\ exists z, NumberField NUInt16 [xff; xfe; x01] (int 65534)
               = NumberField NUInt16 [xff; xfe; x01] (int z)
               /\ 0 <= z <= max_value NUInt16.
Proof.
  assert (Hdec : decode (FieldType_of NUInt16) [xff; xfe; x01]
                 = Ok (NumberField NUInt16 [xff; xfe; x01] (int 65534)))
    by reflexivity.
  split; [exact Hdec|].
  exact (decoded_number_in_range NUInt16 _ _ Hdec).
Defined.

(** ** The length of a variable field *)

Lemma makeVariableBuffer_layout_or_throw (type : FieldType.t) (fieldData : Buffer) :
  makeVariableBuffer type fieldData
  = if Z.of_nat (length fieldData) <? 2 ^ 32
    then Ok (tag_byte type :: be_bytes 4 (Z.of_nat (length fieldData)) ++ fieldData)
    else Throw ERR_OUT_OF_RANGE_value.
Proof.
  destruct (Z.ltb_spec (Z.of_nat (length fieldData)) (2 ^ 32)) as [Hlt|Hge].
  - apply makeVariableBuffer_layout, Hlt.
  - unfold makeVariableBuffer. rewrite alloc_header.
    unfold Buf.writeUInt8. rewrite tag_in_range. cbn [lookup list_lookup bind].
    unfold Buf.writeUInt32BE, Buf.checkInt. rewrite number_gt_int.
    replace (4294967295 <? Z.of_nat (length fieldData)) with true by lia.
    reflexivity.
Qed.

(** X6. [makeVariableBuffer] succeeds exactly when the length of the
    data fits the 4-byte length field, and then lays out the tag, that
    length and the data; on longer data the write of the length throws,
    and no buffer with another length than that of the data is made. *)
Theorem makeVariableBuffer_total (type : FieldType.t) (fieldData : Buffer) :
  (makeVariableBuffer type fieldData
   = if Z.of_nat (length fieldData) <? 2 ^ 32
     then Ok (tag_byte type
              :: be_bytes 4 (Z.of_nat (length fieldData)) ++ fieldData)
     else Throw ERR_OUT_OF_RANGE_value)
  /\ (forall bs, makeVariableBuffer type fieldData = Ok bs ->
                 length bs = (5 + length fieldData)%nat
                 /\ Buf.readUInt32BE (drop 1 bs) 0 = Ok (Z.of_nat (length fieldData))
                 /\ drop 5 bs = fieldData).
Proof.
  split; [apply makeVariableBuffer_layout_or_throw|].
  intros bs. rewrite makeVariableBuffer_layout_or_throw.
  destruct (Z.ltb_spec (Z.of_nat (length fieldData)) (2 ^ 32)) as [Hlt|Hge];
    [|discriminate].
  intros [= <-]. pose proof (readUInt32BE_be_bytes (Z.of_nat (length fieldData))
                               ltac:(lia)) as Hread.
  destruct (be_bytes_4 (Z.of_nat (length fieldData))) as (h0 & h1 & h2 & h3 & Hh).
  rewrite Hh in Hread. cbn [be_bytes app] in Hh. injection Hh as <- <- <- <-.
  cbn [be_bytes app length skipn]. rewrite !drop_0.
  split; [reflexivity|]. split; [exact Hread | reflexivity].
Qed.

(** ** The encoding tells fields apart *)

Lemma tag_byte_inj (t1 t2 : FieldType.t) : tag_byte t1 = tag_byte t2 -> t1 = t2.
Proof. destruct t1, t2; solve [reflexivity | discriminate]. Qed.

Lemma buffer_wire (f : Field) (bs : Buffer) :
  buffer f = Ok bs -> bs = wire (type_of f) (data f).
Proof.
  destruct (fixed_size (type_of f)) as [count|] eqn:Hfixed.
  - destruct f as [type p value|p value|p value]; try discriminate.
    rewrite buffer_NumberField. intros [= <-]. unfold wire. rewrite Hfixed.
    reflexivity.
  - rewrite (buffer_variable f Hfixed), makeVariableBuffer_layout_or_throw.
    unfold wire. rewrite Hfixed.
    destruct (_ <? _); [intros [= <-]; reflexivity | discriminate].
Qed.
Lemma wire_inj (t1 t2 : FieldType.t) (p1 p2 : Buffer) :
  wire t1 p1 = wire t2 p2 -> t1 = t2 /\ p1 = p2.
Proof.
  unfold wire. intros Hwire.
  assert (t1 = t2) as <-.
  { apply tag_byte_inj.
    destruct (fixed_size t1), (fixed_size t2); injection Hwire; auto. }
  split; [reflexivity|].
  destruct (fixed_size t1); cbn [be_bytes app] in Hwire; injection Hwire; auto.
Qed.

(** X7. Two fields with the same encoding have the same type and the
    same data: no encoding is shared by fields of two types or of two
    payloads. *)
Theorem buffer_injective (f1 f2 : Field) (bs : Buffer) :
  buffer f1 = Ok bs -> buffer f2 = Ok bs ->
  type_of f1 = type_of f2 /\ data f1 = data f2.
Proof.
  intros H1 H2. apply buffer_wire in H1, H2. apply wire_inj. congruence.
Qed.

(** The string "A" made from the string and decoded from its bytes. *)
Lemma buffer_injective_witness :
  buffer (StringField [x00; x41] [0x41]) = Ok [x26; x00; x00; x00; x02; x00; x41]
  /\ buffer (StringField (utf16be [0x41]) [0x41])
     = Ok [x26; x00; x00; x00; x02; x00; x41]
  /\ type_of (StringField [x00; x41] [0x41])
     = type_of (StringField (utf16be [0x41]) [0x41])
  /\ data (StringField [x00; x41] [0x41])
     = data (StringField (utf16be [0x41]) [0x41]).
Proof.
  assert (H1 : buffer (StringField [x00; x41] [0x41])
               = Ok [x26; x00; x00; x00; x02; x00; x41]) by reflexivity.
  assert (H2 : buffer (StringField (utf16be [0x41]) [0x41])
               = Ok [x26; x00; x00; x00; x02; x00; x41]) by reflexivity.
  split; [exact H1|]. split; [exact H2|].
  exact (buffer_injective _ _ _ H1 H2).
Defined.

(** ** The status handler, device by device *)

Module CliDevices.
Import Cli.

Lemma emitted_for_on_status_same (lastTid : gmap Z Z) (state : State) :
  emitted_for (deviceId state) (on_status lastTid state).2
  = (on_status lastTid state).2.
Proof.
  unfold on_status, emitted_for. case_bool_decide; cbn [snd]; [reflexivity|].
  rewrite filter_cons_True by reflexivity. reflexivity.
Qed.

Lemma emitted_for_on_status_other (lastTid : gmap Z Z) (state : State) (device : Z) :
  deviceId state <> device ->
  emitted_for device (on_status lastTid state).2 = [].
Proof.
  intros Hne. unfold on_status, emitted_for. case_bool_decide; cbn [snd]; [reflexivity|].
  rewrite filter_cons_False by exact Hne. reflexivity.
Qed.

Lemma on_status_agree (m m' : gmap Z Z) (state : State) :
  m !! deviceId state = m' !! deviceId state ->
  (on_status m state).2 = (on_status m' state).2
  /\ (on_status m state).1 !! deviceId state
     = (on_status m' state).1 !! deviceId state.
Proof.
  intros Hagree. rewrite !CliFacts.on_status_recorded. split; [|reflexivity].
  unfold on_status. rewrite Hagree. case_bool_decide; reflexivity.
Qed.

(** The emissions for a device depend on the statuses of that device
    and on what the map records for it, and on nothing else. *)
Lemma run_statuses_of (device : Z) (states : list State) (m m' : gmap Z Z) :
  m !! device = m' !! device ->
  emitted_for device (run m states).2 = (run m' (statuses_of device states)).2.
Proof.
  revert m m'. induction states as [|state states IH]; intros m m' Hagree.
  - reflexivity.
  - cbn [run]. unfold statuses_of. rewrite filter_cons.
    destruct (decide (deviceId state = device)) as [<-|Hne].
    + cbn [run].
      destruct (on_status_agree m m' state Hagree) as [Hemit Hrec].
      pose proof (emitted_for_on_status_same m state) as Hsame.
      destruct (on_status m state) as [m1 e1], (on_status m' state) as [m1' e1'].
      cbn [fst snd] in *. subst e1'.
      specialize (IH m1 m1' Hrec). unfold statuses_of in IH.
      destruct (run m1 states) as [m2 e2], (run m1' _) as [m2' e2'].
      cbn [snd] in *. unfold emitted_for in *. rewrite filter_app, Hsame, IH.
      reflexivity.
    + pose proof (emitted_for_on_status_other m state device Hne) as Hnone.
      pose proof (CliFacts.on_status_other m state device
                    (fun E => Hne (eq_sym E))) as Hother.
      destruct (on_status m state) as [m1 e1]. cbn [fst snd] in *.
      specialize (IH m1 m' (eq_trans Hother Hagree)).
      destruct (run m1 states) as [m2 e2]. cbn [snd] in *.
      unfold emitted_for in *. rewrite filter_app, Hnone, IH. reflexivity.
Qed.

(** The track ids emitted for the statuses of one device: the reported
    ones, with the repeats collapsed. *)
Lemma run_one_device (device : Z) (states : list State) (m : gmap Z Z) :
  Forall (fun state => deviceId state = device) states ->
  (run m states).2
  = map (trackLoaded device) (collapse (m !! device) (map trackId states)).
Proof.
  intros Hall. revert m. induction Hall as [|state states Hd _ IH]; intros m.
  - reflexivity.
  - cbn [run map collapse]. unfold on_status. rewrite Hd.
    case_bool_decide as E.
    + specialize (IH m). destruct (run m states) as [m2 e2]. exact IH.
    + specialize (IH (<[device := trackId state]> m)).
      rewrite lookup_insert_eq in IH.
      destruct (run _ states) as [m2 e2]. cbn [snd app map] in *.
      rewrite IH. reflexivity.
Qed.

Lemma Forall_statuses_of (device : Z) (states : list State) :
  Forall (fun state => deviceId state = device) (statuses_of device states).
Proof.
  apply Forall_forall. intros state Hin. unfold statuses_of in Hin.
  apply list_elem_of_filter in Hin. apply Hin.
Qed.

End CliDevices.

(** X8. After any sequence of statuses, starting from the empty map,
    [lastTid] holds for every device the track id of the latest status
    of that device, and nothing for a device that sent no status. *)
Theorem lastTid_records_latest (states : list Cli.State) (device : Z) :
  (Cli.run Cli.lastTid0 states).1 !! device = Cli.last_trackId device states.
Proof.
  rewrite CliFacts.run_recorded. unfold Cli.lastTid0. rewrite lookup_empty.
  destruct (Cli.last_trackId device states); reflexivity.
Qed.

(** X9. The statuses of other devices neither cause nor suppress an
    emission for a device: what the handler emits for a device over any
    sequence of statuses is what it emits over the statuses of that
    device alone. *)
Theorem emissions_device_independent (lastTid : gmap Z Z) (device : Z)
    (states : list Cli.State) :
  emitted_for device (Cli.run lastTid states).2
  = (Cli.run lastTid (statuses_of device states)).2.
Proof. apply CliDevices.run_statuses_of. reflexivity. Qed.

(** X10. The track ids the handler emits for a device are the track ids
    that device reported, in order, each run of one id emitted once,
    and a leading run of the id the map records for the device not at
    all. *)
Theorem emissions_collapse_repeats (lastTid : gmap Z Z) (device : Z)
    (states : list Cli.State) :
  emitted_for device (Cli.run lastTid states).2
  = map (Cli.trackLoaded device)
      (collapse (lastTid !! device)
         (map Cli.trackId (statuses_of device states))).
Proof.
  rewrite (CliDevices.run_statuses_of device states lastTid lastTid eq_refl).
  apply CliDevices.run_one_device, CliDevices.Forall_statuses_of.
Qed.

Example emissions_interleaved :
  (Cli.run Cli.lastTid0
     [Cli.Build_State 1 100 1 3 1; Cli.Build_State 2 7 2 3 1;
      Cli.Build_State 1 100 1 3 1; Cli.Build_State 2 8 2 3 1;
      Cli.Build_State 1 101 1 3 1; Cli.Build_State 1 100 1 3 1]).2
  = [Cli.trackLoaded 1 100; Cli.trackLoaded 2 7; Cli.trackLoaded 2 8;
     Cli.trackLoaded 1 101; Cli.trackLoaded 1 100].
Proof. vm_compute. reflexivity. Qed.
(** ** Constructors that cannot fail, and what they keep *)

(** X11. Constructing a string field from a string never throws: the
    field keeps the string as its value, its data have two bytes for
    every code unit, and these read back, as UTF-16 big-endian text, to
    the string whenever every unit of it is below 2^16. *)
Theorem String_from_string (s : jsstring) :
  new_String (of_string s) = Ok (StringField (utf16be s) s)
  /\ length (utf16be s) = (2 * length s)%nat
  /\ (valid_string s -> utf16be_text (utf16be s) = s).
Proof.
  split; [apply new_String_of_string|].
  split; [apply length_utf16be | apply utf16be_text_utf16be].
Qed.

(** X12. A number field made from any number the constructor accepts,
    decoded again from its own data, has the integer part of that
    number as its value: the round trip drops the fraction, and gives
    0 for [NaN]. *)
Theorem number_roundtrip_truncates (type : NumberFieldType) (value : number)
    (f : Field) :
  new_Number type (of_number value) = Ok f ->
  decode (FieldType_of type) (data f)
  = Ok (NumberField type (data f) (int (ToInteger value))).
Proof.
  rewrite new_Number_of_number.
  destruct (out_of_range type value) eqn:E; [discriminate|]. intros [= <-].
  cbn [data]. rewrite decode_number, new_Number_of_Buffer.
  rewrite length_be_bytes, Nat.ltb_irrefl.
  rewrite take_ge by (rewrite length_be_bytes; lia).
  pose proof (ToInteger_in_range value _ (max_value_nonneg type) E) as Hrange.
  rewrite uint_be_small; [reflexivity|]. rewrite max_value_pow in Hrange. lia.
Qed.

(** The number 513/2 as a [UInt16]. *)
Lemma number_roundtrip_truncates_witness :
  new_Number NUInt16 (of_number (Finite (513 # 2)))
  = Ok (NumberField NUInt16 [x01; x00] (Finite (513 # 2)))
  /\ decode FieldType.UInt16 [x01; x00]
     = Ok (NumberField NUInt16 [x01; x00] (int 256)).
Proof.
  assert (Hnew : new_Number NUInt16 (of_number (Finite (513 # 2)))
                 = Ok (NumberField NUInt16 [x01; x00] (Finite (513 # 2))))
    by reflexivity.
  split; [exact Hnew|].
  exact (number_roundtrip_truncates NUInt16 _ _ Hnew).
Defined.
